(** * A shallow embedding of [src/src/main.ts] (bsky-bot-with-image-upload)

    The bot downloads a camera snapshot, asks a chat-completion endpoint for
    a description, truncates it, and posts image plus description.

    JavaScript strings are sequences of UTF-16 code units, modelled as
    [list N]; byte buffers ([Buffer], [Uint8Array]) as [list Byte.byte]. *)

From Stdlib Require Import Strings.String Strings.Ascii Strings.Byte ZArith Lia.
From stdpp Require Import base list gmap pretty.

Open Scope N_scope.

(** ** JavaScript strings *)

(** A JS string: its UTF-16 code units, as returned by [charCodeAt]. *)
Abbreviation jsstr := (list N).

(** An ASCII string literal of the source, as code units. *)
Fixpoint lit (s : string) : jsstr :=
  match s with
  | EmptyString => []
  | String c r => N_of_ascii c :: lit r
  end.

(** [s.length]: the number of code units. *)
Definition js_length (s : jsstr) : nat := length s.

(** [s.slice(0, k)] for [k >= 0]. *)
Definition js_slice0 (s : jsstr) (k : nat) : jsstr := firstn k s.

(** JS truthiness of a string value: the empty string is falsy. *)
Definition js_truthy (s : jsstr) : bool :=
  match s with [] => false | _ => true end.

(** [s.split(sep)] for a one-code-unit separator. *)
Fixpoint js_split (sep : N) (s : jsstr) : list jsstr :=
  match s with
  | [] => [[]]
  | c :: r =>
      if N.eqb c sep then [] :: js_split sep r
      else match js_split sep r with
           | [] => [[c]]
           | h :: t => (c :: h) :: t
           end
  end.

(** [String(undefined)], what [atob(undefined)] converts its argument to. *)
Definition str_undefined : jsstr := lit "undefined".

(** ** getPostText, lines 136-140: truncating the description *)

Definition maxGraphemes : nat := 300.

Definition truncateDescription (imageDescription : jsstr) : jsstr :=
  if Nat.ltb maxGraphemes (js_length imageDescription)
  then js_slice0 imageDescription maxGraphemes ++ lit "..."
  else imageDescription.

(** ** Base64, as used by [Buffer.toString('base64')] and [atob]

    Bytes are grouped by three into four 6-bit values (RFC 4648, standard
    alphabet, [=] padding). *)

Definition b64_alphabet : jsstr :=
  lit "ABCDEFGHIJKLMNOPQRSTUVWXYZabcdefghijklmnopqrstuvwxyz0123456789+/".

Definition pad_char : N := 61.  (* "=" *)
Definition comma : N := 44.     (* "," *)

Definition b64_char (k : N) : N := nth (N.to_nat k) b64_alphabet 0.

Fixpoint index_of (c : N) (l : jsstr) (i : N) : option N :=
  match l with
  | [] => None
  | x :: r => if N.eqb x c then Some i else index_of c r (i + 1)
  end.

Definition b64_value (c : N) : option N := index_of c b64_alphabet 0.

(** The 6-bit groups of a byte sequence, without padding. *)
Fixpoint sextets (bs : list byte) : list N :=
  match bs with
  | x :: y :: z :: r =>
      let a := Byte.to_N x in let b := Byte.to_N y in let c := Byte.to_N z in
      [a / 4; (a mod 4) * 16 + b / 16; (b mod 16) * 4 + c / 64; c mod 64]
        ++ sextets r
  | [x; y] =>
      let a := Byte.to_N x in let b := Byte.to_N y in
      [a / 4; (a mod 4) * 16 + b / 16; (b mod 16) * 4]
  | [x] =>
      let a := Byte.to_N x in [a / 4; (a mod 4) * 16]
  | [] => []
  end.

Definition pad_length (n : nat) : nat :=
  match Nat.modulo n 3 with 0%nat => 0 | 1%nat => 2 | _ => 1 end.

(** [buf.toString('base64')]. *)
Definition buffer_to_base64 (bs : list byte) : jsstr :=
  map b64_char (sextets bs) ++ repeat pad_char (pad_length (length bs)).

(** [atob], following the forgiving-base64 decode of the HTML standard:
    drop ASCII whitespace, drop one or two trailing [=] when the length is a
    multiple of four, refuse a length of 1 modulo 4 and any character out of
    the alphabet, then decode 24 bits at a time, discarding the leftover
    bits of a final partial group.  [None] is the [InvalidCharacterError]. *)

Definition ascii_whitespace (c : N) : bool :=
  N.eqb c 9 || N.eqb c 10 || N.eqb c 12 || N.eqb c 13 || N.eqb c 32.

Definition strip_padding (s : jsstr) : jsstr :=
  match rev s with
  | p :: q :: r => if N.eqb p pad_char && N.eqb q pad_char then rev r
                   else if N.eqb p pad_char then rev (q :: r) else s
  | [p] => if N.eqb p pad_char then [] else s
  | [] => s
  end.

Fixpoint values_of (s : jsstr) : option (list N) :=
  match s with
  | [] => Some []
  | c :: r =>
      match b64_value c, values_of r with
      | Some v, Some vs => Some (v :: vs)
      | _, _ => None
      end
  end.

Fixpoint decode_values (vs : list N) : jsstr :=
  match vs with
  | s1 :: s2 :: s3 :: s4 :: r =>
      let n := s1 * 262144 + s2 * 4096 + s3 * 64 + s4 in
      [n / 65536; (n / 256) mod 256; n mod 256] ++ decode_values r
  | [s1; s2; s3] =>
      let n := (s1 * 4096 + s2 * 64 + s3) / 4 in [n / 256; n mod 256]
  | [s1; s2] => [(s1 * 64 + s2) / 16]
  | _ => []
  end.

Definition atob (data : jsstr) : option jsstr :=
  let s := List.filter (fun c => negb (ascii_whitespace c)) data in
  let s := if Nat.eqb (Nat.modulo (length s) 4) 0 then strip_padding s else s in
  if Nat.eqb (Nat.modulo (length s) 4) 1 then None
  else match values_of s with
       | Some vs => Some (decode_values vs)
       | None => None
       end.

(** ** getImageDataUrl, lines 85-94 (the part after reading the file) *)

Definition data_url (imageFormat : jsstr) (imageBuffer : list byte) : jsstr :=
  lit "data:image/" ++ imageFormat ++ lit ";base64," ++ buffer_to_base64 imageBuffer.

(** ** convertDataURIToUint8Array, lines 96-104

    [uint8Array[i] = v] stores [v] modulo 256. *)

Definition byte_of_code (v : N) : byte :=
  match Byte.of_N (v mod 256) with Some b => b | None => x00 end.

(** [None]: [atob] threw. *)
Definition convertDataURIToUint8Array (dataURI : jsstr) : option (list byte) :=
  let part := match js_split comma dataURI !! 1%nat with
              | Some p => p
              | None => str_undefined
              end in
  match atob part with
  | Some byteString => Some (map byte_of_code byteString)
  | None => None
  end.

(** ** The environment of a run

    The external services are given by a [world]: the answers of the HTTP
    server, the file system's failures, the inference endpoint, the posting
    service, the clock and the process environment.  The program's own
    effects (files written, requests sent, lines logged) are recorded in a
    [state]. *)

(** A JavaScript [Error]: its [name] and [message]. *)
Record js_error := mkJsError { err_name : jsstr; err_message : jsstr }.

Definition Error (msg : jsstr) : js_error := mkJsError (lit "Error") msg.
Definition TypeError (msg : jsstr) : js_error := mkJsError (lit "TypeError") msg.

(** The part of Node's [http.IncomingMessage] the code reads. *)
Record http_response := mkHttpResponse {
  statusCode : N;
  location : option jsstr;   (* headers.location *)
  resp_body : list byte
}.

(** The [error] property of the response object, as tested at line 71. *)
Inductive error_property :=
  | ErrAbsent                       (* no own property [error] *)
  | ErrNull                         (* [error: null] *)
  | ErrObject (message : option jsstr)  (* an object, with or without [message] *)
  | ErrOther.                       (* a primitive value *)

(** One element of [choices]; [None] is a [null] or missing [content]. *)
Record chat_choice := mkChoice { content : option jsstr }.

(** The JSON body: [choices] when the key is present, and the [message] of
    an [error] object (the shape of the service's error responses). *)
Record chat_body := mkChatBody {
  body_choices : option (list chat_choice);
  body_error_message : option jsstr
}.

(** The value resolved by [client.path("/chat/completions").post(...)].
    [resp_error] is an own property [error] of the response object itself;
    the response objects of [@azure-rest/core-client] carry [request],
    [headers], [status] and [body] only, so for them it is [ErrAbsent]. *)
Record chat_response := mkChatResponse {
  status : jsstr;
  resp_error : error_property;
  body : chat_body
}.

Definition blob_ref := jsstr.

(** [images[i]] of an [app.bsky.embed.images] embed. *)
Record embed_image := mkEmbedImage {
  alt : jsstr;
  image : blob_ref;
  aspect_width : N;
  aspect_height : N
}.

(** The record given to [agent.post]. *)
Record post_record := mkPostRecord {
  text : jsstr;
  embed_type : jsstr;
  images : list embed_image;
  createdAt : jsstr
}.

Record world := mkWorld {
  env_KEY_GITHUB_TOKEN : option jsstr;
  env_BSKY_HANDLE : option jsstr;
  env_BSKY_PASSWORD : option jsstr;
  (** What [https.get(url, ...)] throws synchronously for this URL string:
      Node's [TypeError] [ERR_INVALID_URL] for a string that is not an
      absolute URL (a relative path), [ERR_INVALID_PROTOCOL] for a protocol
      other than [https:]; [None] for an absolute https URL. *)
  w_url_error : jsstr -> option js_error;
  (** [https.get(url)]: the response, or the request's ['error'] event
      before any response. *)
  w_get : jsstr -> js_error + http_response;
  (** [Some (k, e)]: after its response has arrived, the connection of the
      request to this URL fails and the request emits ['error'] with [e],
      once [k] bytes of the body were received (for a response whose body
      is not read, [k] plays no role). *)
  w_reset : jsstr -> option (nat * js_error);
  (** [Some (k, e)]: the write stream to this path emits ['error'] with [e]
      after [k] bytes were written; [k = 0] when it cannot be opened (for
      instance [ENOTDIR] when [today] is a regular file). *)
  w_write_fails : jsstr -> option (nat * js_error);
  (** [fs.mkdirSync] throws on this path. *)
  w_mkdir_fails : jsstr -> option js_error;
  (** [fs.readFileSync] throws on this path even when the file exists. *)
  w_read_fails : jsstr -> bool;
  (** The inference call, for the image data URL of the request. *)
  w_chat : jsstr -> js_error + chat_response;
  (** [agent.login]: [None] on success. *)
  w_login : jsstr -> jsstr -> option js_error;
  (** [agent.uploadBlob]: the blob reference, or the rejection. *)
  w_upload : list byte -> js_error + blob_ref;
  (** [agent.post]: [None] on success. *)
  w_post : post_record -> option js_error;
  (** [new Date().toISOString()]. *)
  w_now : jsstr
}.

Inductive event :=
  | EvMkdir (dir : jsstr)
  | EvGet (url : jsstr)
  | EvWrite (path : jsstr) (bytes : list byte)
  | EvUnlink (path : jsstr)
  | EvChat (imageDataUrl : jsstr)
  | EvLogin (identifier password : jsstr)
  | EvUpload (bytes : list byte) (encoding : jsstr)
  | EvPost (record : post_record)
  | EvLog (line : jsstr)
  | EvError (line : jsstr)
  | EvUncaught (e : js_error)
  | EvExit (code : N).

Record state := mkState {
  st_fs : gmap jsstr (list byte);
  st_dirs : list jsstr;
  st_trace : list event
}.

(** How a computation ends: a value, a thrown exception (or rejected
    promise), or [process.exit]. *)
Inductive outcome (A : Type) :=
  | Ret (a : A)
  | Throw (e : js_error)
  | Exit (code : N).
Arguments Ret {A} a.
Arguments Throw {A} e.
Arguments Exit {A} code.

(** Awaited asynchronous code runs sequentially; a rejection behaves as a
    throw. *)
Definition M (A : Type) : Type := world -> state -> outcome A * state.

Global Instance M_ret : MRet M := fun A a w st => (Ret a, st).
Global Instance M_bind : MBind M := fun A B k m w st =>
  match m w st with
  | (Ret a, st') => k a w st'
  | (Throw e, st') => (Throw e, st')
  | (Exit c, st') => (Exit c, st')
  end.

(** The state with one more event at the end of the trace. *)
Definition log_event (st : state) (ev : event) : state :=
  mkState (st_fs st) (st_dirs st) (st_trace st ++ [ev]).

Definition ask : M world := fun w st => (Ret w, st).
Definition get_state : M state := fun w st => (Ret st, st).
Definition throw {A} (e : js_error) : M A := fun w st => (Throw e, st).
Definition process_exit {A} (code : N) : M A :=
  fun w st => (Exit code, log_event st (EvExit code)).
(** An exception thrown inside an event listener: nothing catches it, and
    Node prints it and ends the process with status 1. *)
Definition uncaught {A} (e : js_error) : M A :=
  fun w st => (Exit 1, log_event (log_event st (EvUncaught e)) (EvExit 1)).
(** Work that goes on after a promise has settled: its effects happen, its
    outcome is not observed. *)
Definition background (m : M unit) : M unit := fun w st =>
  match m w st with
  | (Exit c, st') => (Exit c, st')
  | (_, st') => (Ret tt, st')
  end.
Definition emit (ev : event) : M unit := fun w st => (Ret tt, log_event st ev).
Definition write_file (p : jsstr) (bs : list byte) : M unit :=
  fun w st => (Ret tt, mkState (<[p := bs]> (st_fs st)) (st_dirs st) (st_trace st ++ [EvWrite p bs])).
Definition unlink_file (p : jsstr) : M unit :=
  fun w st => (Ret tt, mkState (delete p (st_fs st)) (st_dirs st) (st_trace st ++ [EvUnlink p])).
Definition make_dir (p : jsstr) : M unit :=
  fun w st => (Ret tt, mkState (st_fs st) (st_dirs st ++ [p]) (st_trace st ++ [EvMkdir p])).

(** [try { c } catch (e) { h(e) }]: [process.exit] is not caught. *)
Definition try_catch {A} (c : M A) (h : js_error -> M A) : M A := fun w st =>
  match c w st with
  | (Throw e, st') => h e w st'
  | r => r
  end.

(** ** Module-level constants, lines 12-19 *)

Definition todayFolder : jsstr := lit "today".
Definition imageFileName : jsstr := lit "todays_image.jpg".
Definition imageUrl : jsstr :=
  lit "https://webkamera.atlas.vegvesen.no/public/kamera?id=0229009_1".

(** [path.join(a, b)] for two relative segments without separators. *)
Definition path_join (a b : jsstr) : jsstr := a ++ lit "/" ++ b.

Definition imageDest : jsstr := path_join todayFolder imageFileName.

Definition newline : jsstr := [10].
Definition dquote : jsstr := [34].

(** ** downloadImage and saveImageToFile, lines 21-46 *)

Definition saveImageToFile (response : http_response) (dest : jsstr) : M unit :=
  w ← ask;
  match w_write_fails w dest with
  | None =>
      (* 'finish', then file.close(resolve) *)
      write_file dest (resp_body response)
  | Some (k, err) =>
      (* 'error': fs.unlink(dest, () => reject(err)) *)
      write_file dest (firstn k (resp_body response));;
      unlink_file dest;;
      throw err
  end.

(** [response.pipe(file)] of [saveImageToFile], for the response of the
    request to [url].  When that request's connection fails after [k] bytes
    of a longer body ([w_reset]), the request's ['error'] listener rejects
    with its error; the file keeps the [k] bytes received and is neither
    finished nor unlinked.  A write-stream failure after at most [k] bytes
    is taken to come first, and [saveImageToFile] handles it. *)
Definition pipeResponse (url : jsstr) (response : http_response) (dest : jsstr) : M unit :=
  w ← ask;
  match w_reset w url with
  | Some (k, err) =>
      if Nat.ltb k (length (resp_body response)) then
        match w_write_fails w dest with
        | Some (j, _) =>
            if Nat.leb j k then saveImageToFile response dest
            else write_file dest (firstn k (resp_body response));; throw err
        | None => write_file dest (firstn k (resp_body response));; throw err
        end
      else saveImageToFile response dest
  | None => saveImageToFile response dest
  end.

(** [https.get(location, ...)] inside the ['response'] listener (line 25):
    when it throws, the exception escapes the listener uncaught. *)
Definition getInListener (loc : jsstr) : M unit :=
  w ← ask;
  match w_url_error w loc with
  | Some e => uncaught e
  | None => emit (EvGet loc)
  end.

(** The answer of the request to the redirect target, lines 25-27. *)
Definition getRedirected (loc dest : jsstr) : M unit :=
  w ← ask;
  match w_get w loc with
  | inl err => throw err
  | inr redirectedResponse => pipeResponse loc redirectedResponse dest
  end.

Definition downloadImage (url dest : jsstr) : M unit :=
  w ← ask;
  match w_url_error w url with
  | Some e =>
      (* thrown in the promise executor: the promise rejects *)
      throw e
  | None =>
      emit (EvGet url);;
      match w_get w url with
      | inl err => throw err
      | inr response =>
          match location response with
          | Some loc =>
              if N.eqb (statusCode response) 302 && js_truthy loc then
                getInListener loc;;
                match w_reset w url with
                | None => getRedirected loc dest
                | Some (_, err) =>
                    (* the first request fails after its 302 answer: the
                       promise rejects with [err], the redirected download
                       goes on *)
                    background (getRedirected loc dest);;
                    throw err
                end
              else if N.eqb (statusCode response) 200 then pipeResponse url response dest
              else throw (Error (lit "Failed to download image. Status Code: "
                                 ++ lit (pretty (statusCode response))))
          | None =>
              if N.eqb (statusCode response) 200 then pipeResponse url response dest
              else throw (Error (lit "Failed to download image. Status Code: "
                                 ++ lit (pretty (statusCode response))))
          end
      end
  end.

(** ** getImageDataUrl, lines 85-94 *)

Definition could_not_read (imageFile : jsstr) : jsstr :=
  lit "Could not read '" ++ imageFile ++ lit "'.".

Definition getImageDataUrl (imageFile imageFormat : jsstr) : M jsstr :=
  w ← ask;
  st ← get_state;
  match (if w_read_fails w imageFile then None else st_fs st !! imageFile) with
  | Some imageBuffer => mret (data_url imageFormat imageBuffer)
  | None =>
      emit (EvError (could_not_read imageFile));;
      process_exit 1
  end.

(** ** getImageDescription, lines 48-83 *)

Definition no_description : jsstr := lit "No description available.".

(** The condition of line 71: the message to throw, if any. *)
Definition error_guard (response : chat_response) : option jsstr :=
  if bool_decide (status response = lit "200") then None
  else match resp_error response with
       | ErrObject (Some message) => Some message
       | _ => None
       end.

Definition getImageDescription : M jsstr :=
  w ← ask;
  match env_KEY_GITHUB_TOKEN w with
  | Some token =>
      if js_truthy token then
        imageDataUrl ← getImageDataUrl imageDest (lit "jpg");
        emit (EvChat imageDataUrl);;
        match w_chat w imageDataUrl with
        | inl err => throw err
        | inr response =>
            match error_guard response with
            | Some message => throw (Error message)
            | None =>
                match body_choices (body response) with
                | Some choices =>
                    match choices with
                    | [] => throw (TypeError
                              (lit "Cannot read properties of undefined (reading 'message')"))
                    | choice :: _ =>
                        match content choice with
                        | Some c => if js_truthy c then mret c else mret no_description
                        | None => mret no_description
                        end
                    end
                | None => throw (Error (lit "Unexpected response format"))
                end
            end
        end
      else throw (Error (lit "Azure API token is not defined"))
  | None => throw (Error (lit "Azure API token is not defined"))
  end.

(** ** getPostText, lines 106-169 *)

Definition error_downloading : jsstr := lit "Error downloading the image.".
Definition error_describing : jsstr := lit "Error getting image description.".

(** [fs.existsSync(p)]: a directory or a file exists at [p]. *)
Definition existsSync (st : state) (p : jsstr) : bool :=
  bool_decide (p ∈ st_dirs st) ||
  match st_fs st !! p with Some _ => true | None => false end.

(** Lines 107-110. *)
Definition ensureTodayFolder : M unit :=
  w ← ask;
  st ← get_state;
  if existsSync st todayFolder then mret ()
  else match w_mkdir_fails w todayFolder with
       | Some e => throw e
       | None => make_dir todayFolder
       end.

(** Lines 112-114: the credentials, when both are truthy. *)
Definition bskyCredentials (w : world) : option (jsstr * jsstr) :=
  match env_BSKY_HANDLE w, env_BSKY_PASSWORD w with
  | Some h, Some p => if js_truthy h && js_truthy p then Some (h, p) else None
  | _, _ => None
  end.

(** Lines 116-124; [inr s] is the early [return s]. *)
Definition downloadStep : M (unit + jsstr) :=
  try_catch
    (downloadImage imageUrl imageDest;;
     emit (EvLog (lit "Image downloaded to: " ++ imageDest));;
     mret (inl ()))
    (fun _ => emit (EvError error_downloading);; mret (inr error_downloading)).

(** Lines 126-134; [inr s] is the early [return s]. *)
Definition describeStep : M (jsstr + jsstr) :=
  try_catch
    (d ← getImageDescription;
     let imageDescription := if js_truthy d then d else no_description in
     emit (EvLog (lit "Image description received: " ++ imageDescription));;
     mret (inl imageDescription))
    (fun _ => emit (EvError error_describing);; mret (inr error_describing)).

(** The post of lines 150-166. *)
Definition make_post (imageDescription : jsstr) (blob : blob_ref) (now : jsstr) : post_record :=
  mkPostRecord imageDescription (lit "app.bsky.embed.images")
    [mkEmbedImage imageDescription blob 1000 500] now.

(** Lines 142-168. *)
Definition publishStep (handle password imageDescription : jsstr) : M jsstr :=
  w ← ask;
  emit (EvLogin handle password);;
  match w_login w handle password with
  | Some err => throw err
  | None =>
      imageDataUrl ← getImageDataUrl imageDest (lit "jpg");
      match convertDataURIToUint8Array imageDataUrl with
      | None => throw (mkJsError (lit "InvalidCharacterError")
                         (lit "The string to be decoded is not correctly encoded."))
      | Some bytes =>
          emit (EvUpload bytes (lit "image/jpeg"));;
          match w_upload w bytes with
          | inl err => throw err
          | inr blob =>
              let post := make_post imageDescription blob (w_now w) in
              emit (EvPost post);;
              match w_post w post with
              | Some err => throw err
              | None => mret (imageDescription ++ newline ++ lit "![Image](" ++ imageUrl ++ lit ")")
              end
          end
      end
  end.

Definition getPostText : M jsstr :=
  ensureTodayFolder;;
  w ← ask;
  match bskyCredentials w with
  | None => throw (Error (lit "Bluesky handle or password is not defined"))
  | Some (handle, password) =>
      downloaded ← downloadStep;
      match downloaded with
      | inr placeholder => mret placeholder
      | inl _ =>
          described ← describeStep;
          match described with
          | inr placeholder => mret placeholder
          | inl imageDescription =>
              publishStep handle password (truncateDescription imageDescription)
          end
      end
  end.

(** ** main, lines 171-178 *)

Definition main : M unit :=
  try_catch
    (text ← getPostText;
     w ← ask;
     emit (EvLog (lit "[" ++ w_now w ++ lit "] Posted: " ++ dquote ++ text ++ dquote)))
    (fun _ => emit (EvError (lit "Error posting to Bluesky:"))).

(** Calls to the posting service. *)
Definition publication_event (ev : event) : bool :=
  match ev with EvLogin _ _ | EvUpload _ _ | EvPost _ => true | _ => false end.

(** The records sent to [agent.post], in order. *)
Fixpoint posts_in (tr : list event) : list post_record :=
  match tr with
  | [] => []
  | EvPost p :: r => p :: posts_in r
  | _ :: r => posts_in r
  end.


(** How the trace ends when the process ends with status 1: with the
    message and [process.exit(1)] of [getImageDataUrl] on the image file, or
    with an uncaught exception of [https.get] on a URL it refuses. *)
Definition exit_trace (w : world) (tr : list event) : Prop :=
  (exists pre, tr = pre ++ [EvError (could_not_read imageDest); EvExit 1]) \/
  (exists pre loc e, w_url_error w loc = Some e /\ tr = pre ++ [EvUncaught e; EvExit 1]).


(** ** Sample runs *)

Module Samples.

Definition ok_response : http_response := mkHttpResponse 200 None [x58].

Definition cat_reply : chat_response :=
  mkChatResponse (lit "200") ErrAbsent
    (mkChatBody (Some [mkChoice (Some (lit "A cat on a bridge."))]) None).

Definition w_ok : world := {|
  env_KEY_GITHUB_TOKEN := Some (lit "tok");
  env_BSKY_HANDLE := Some (lit "bot.bsky.social");
  env_BSKY_PASSWORD := Some (lit "pw");
  w_url_error := fun _ => None;
  w_get := fun _ => inr ok_response;
  w_reset := fun _ => None;
  w_write_fails := fun _ => None;
  w_mkdir_fails := fun _ => None;
  w_read_fails := fun _ => false;
  w_chat := fun _ => inr cat_reply;
  w_login := fun _ _ => None;
  w_upload := fun _ => inr (lit "blob1");
  w_post := fun _ => None;
  w_now := lit "2026-10-17T00:00:00.000Z"
|}.

Definition st0 : state := mkState ∅ [] [].

(** A state where the image of an earlier run is on disk. *)
Definition st_img : state := mkState {[imageDest := [x58]]} [todayFolder] [].

Definition set_get (w : world) (g : jsstr -> js_error + http_response) : world := {|
  env_KEY_GITHUB_TOKEN := env_KEY_GITHUB_TOKEN w; env_BSKY_HANDLE := env_BSKY_HANDLE w;
  env_BSKY_PASSWORD := env_BSKY_PASSWORD w; w_get := g;
  w_url_error := w_url_error w; w_reset := w_reset w; w_mkdir_fails := w_mkdir_fails w;
  w_write_fails := w_write_fails w; w_read_fails := w_read_fails w; w_chat := w_chat w;
  w_login := w_login w; w_upload := w_upload w; w_post := w_post w; w_now := w_now w |}.

Definition set_chat (w : world) (c : jsstr -> js_error + chat_response) : world := {|
  env_KEY_GITHUB_TOKEN := env_KEY_GITHUB_TOKEN w; env_BSKY_HANDLE := env_BSKY_HANDLE w;
  env_BSKY_PASSWORD := env_BSKY_PASSWORD w; w_get := w_get w;
  w_url_error := w_url_error w; w_reset := w_reset w; w_mkdir_fails := w_mkdir_fails w;
  w_write_fails := w_write_fails w; w_read_fails := w_read_fails w; w_chat := c;
  w_login := w_login w; w_upload := w_upload w; w_post := w_post w; w_now := w_now w |}.


Definition set_write_fails (w : world) (f : jsstr -> option (nat * js_error)) : world := {|
  env_KEY_GITHUB_TOKEN := env_KEY_GITHUB_TOKEN w; env_BSKY_HANDLE := env_BSKY_HANDLE w;
  env_BSKY_PASSWORD := env_BSKY_PASSWORD w; w_get := w_get w;
  w_url_error := w_url_error w; w_reset := w_reset w; w_mkdir_fails := w_mkdir_fails w;
  w_write_fails := f; w_read_fails := w_read_fails w; w_chat := w_chat w;
  w_login := w_login w; w_upload := w_upload w; w_post := w_post w; w_now := w_now w |}.

Definition set_handle (w : world) (h : option jsstr) : world := {|
  env_KEY_GITHUB_TOKEN := env_KEY_GITHUB_TOKEN w; env_BSKY_HANDLE := h;
  env_BSKY_PASSWORD := env_BSKY_PASSWORD w; w_get := w_get w;
  w_url_error := w_url_error w; w_reset := w_reset w; w_mkdir_fails := w_mkdir_fails w;
  w_write_fails := w_write_fails w; w_read_fails := w_read_fails w; w_chat := w_chat w;
  w_login := w_login w; w_upload := w_upload w; w_post := w_post w; w_now := w_now w |}.


Definition set_reset (w : world) (r : jsstr -> option (nat * js_error)) : world := {|
  env_KEY_GITHUB_TOKEN := env_KEY_GITHUB_TOKEN w; env_BSKY_HANDLE := env_BSKY_HANDLE w;
  env_BSKY_PASSWORD := env_BSKY_PASSWORD w; w_get := w_get w;
  w_url_error := w_url_error w; w_reset := r; w_mkdir_fails := w_mkdir_fails w;
  w_write_fails := w_write_fails w; w_read_fails := w_read_fails w; w_chat := w_chat w;
  w_login := w_login w; w_upload := w_upload w; w_post := w_post w; w_now := w_now w |}.

Definition set_mkdir_fails (w : world) (f : jsstr -> option js_error) : world := {|
  env_KEY_GITHUB_TOKEN := env_KEY_GITHUB_TOKEN w; env_BSKY_HANDLE := env_BSKY_HANDLE w;
  env_BSKY_PASSWORD := env_BSKY_PASSWORD w; w_get := w_get w;
  w_url_error := w_url_error w; w_reset := w_reset w; w_mkdir_fails := f;
  w_write_fails := w_write_fails w; w_read_fails := w_read_fails w; w_chat := w_chat w;
  w_login := w_login w; w_upload := w_upload w; w_post := w_post w; w_now := w_now w |}.


(** The camera host cannot be reached. *)
Definition w_dl_fail : world :=
  set_get w_ok (fun _ => inl (Error (lit "getaddrinfo ENOTFOUND"))).

(** The inference service answers with a rate-limit error. *)
Definition rate_limited_reply : chat_response :=
  mkChatResponse (lit "429") ErrAbsent (mkChatBody None (Some (lit "rate limited"))).
Definition w_rate_limited : world := set_chat w_ok (fun _ => inr rate_limited_reply).


(** The disk fills up after two bytes. *)
Definition w_disk_full : world :=
  set_write_fails w_ok (fun _ => Some (2%nat, Error (lit "ENOSPC: no space left on device"))).

(** No Bluesky handle in the environment. *)
Definition w_nohandle : world := set_handle w_ok None.

(** The camera redirects to an image host, which serves the image; the
    model's answer has an empty content. *)
Definition cdn_url : jsstr := lit "https://cdn.example/todays_image.jpg".
Definition redirect_response : http_response := mkHttpResponse 302 (Some cdn_url) [].
Definition empty_content_reply : chat_response :=
  mkChatResponse (lit "200") ErrAbsent (mkChatBody (Some [mkChoice (Some [])]) None).
Definition w_redirected : world :=
  set_chat
    (set_get w_ok (fun u => if bool_decide (u = imageUrl) then inr redirect_response
                            else inr ok_response))
    (fun _ => inr empty_content_reply).


End Samples.

(** ** Further sample worlds *)

Module ExtraSamples.

Definition w_notoken : world := {|
  env_KEY_GITHUB_TOKEN := None; env_BSKY_HANDLE := env_BSKY_HANDLE Samples.w_ok;
  env_BSKY_PASSWORD := env_BSKY_PASSWORD Samples.w_ok; w_get := w_get Samples.w_ok;
  w_url_error := w_url_error Samples.w_ok; w_reset := w_reset Samples.w_ok;
  w_mkdir_fails := w_mkdir_fails Samples.w_ok;
  w_write_fails := w_write_fails Samples.w_ok; w_read_fails := w_read_fails Samples.w_ok;
  w_chat := w_chat Samples.w_ok; w_login := w_login Samples.w_ok;
  w_upload := w_upload Samples.w_ok; w_post := w_post Samples.w_ok;
  w_now := w_now Samples.w_ok |}.

Definition empty_reply : chat_response :=
  mkChatResponse (lit "200") ErrAbsent (mkChatBody (Some []) None).

Definition w_login_fails : world := {|
  env_KEY_GITHUB_TOKEN := env_KEY_GITHUB_TOKEN Samples.w_ok;
  env_BSKY_HANDLE := env_BSKY_HANDLE Samples.w_ok;
  env_BSKY_PASSWORD := env_BSKY_PASSWORD Samples.w_ok; w_get := w_get Samples.w_ok;
  w_url_error := w_url_error Samples.w_ok; w_reset := w_reset Samples.w_ok;
  w_mkdir_fails := w_mkdir_fails Samples.w_ok;
  w_write_fails := w_write_fails Samples.w_ok; w_read_fails := w_read_fails Samples.w_ok;
  w_chat := w_chat Samples.w_ok;
  w_login := fun _ _ => Some (Error (lit "Invalid identifier or password"));
  w_upload := w_upload Samples.w_ok;
  w_post := w_post Samples.w_ok; w_now := w_now Samples.w_ok |}.

Definition w_upload_fails : world := {|
  env_KEY_GITHUB_TOKEN := env_KEY_GITHUB_TOKEN Samples.w_ok;
  env_BSKY_HANDLE := env_BSKY_HANDLE Samples.w_ok;
  env_BSKY_PASSWORD := env_BSKY_PASSWORD Samples.w_ok; w_get := w_get Samples.w_ok;
  w_url_error := w_url_error Samples.w_ok; w_reset := w_reset Samples.w_ok;
  w_mkdir_fails := w_mkdir_fails Samples.w_ok;
  w_write_fails := w_write_fails Samples.w_ok; w_read_fails := w_read_fails Samples.w_ok;
  w_chat := w_chat Samples.w_ok; w_login := w_login Samples.w_ok;
  w_upload := fun _ => inl (Error (lit "Request entity too large"));
  w_post := w_post Samples.w_ok; w_now := w_now Samples.w_ok |}.

Definition w_redirect_404 : world :=
  Samples.set_get Samples.w_ok (fun u =>
    if bool_decide (u = imageUrl)
    then inr (mkHttpResponse 302 (Some (lit "https://cdn.example/img")) [])
    else inr (mkHttpResponse 404 None [x4e])).

(** The connection is reset after the first byte of a two-byte image. *)
Definition w_reset_midway : world :=
  Samples.set_reset
    (Samples.set_get Samples.w_ok (fun _ => inr (mkHttpResponse 200 None [x58; x59])))
    (fun _ => Some (1%nat, Error (lit "read ECONNRESET"))).

(** The folder cannot be made. *)
Definition w_mkdir_denied : world :=
  Samples.set_mkdir_fails Samples.w_ok
    (fun _ => Some (mkJsError (lit "Error") (lit "EACCES: permission denied, mkdir 'today'"))).

End ExtraSamples.

(** ** Lemmas on the base64 round trip *)

Module Base64Facts.

Lemma bytes_ind3 (P : list byte -> Prop) :
  P [] -> (forall x, P [x]) -> (forall x y, P [x; y]) ->
  (forall x y z r, P r -> P (x :: y :: z :: r)) -> forall l, P l.
Proof.
  intros H0 H1 H2 H3. fix IH 1. intros [|x [|y [|z r]]].
  - exact H0.
  - apply H1.
  - apply H2.
  - apply H3, IH.
Qed.

Lemma to_N_lt (b : byte) : Byte.to_N b < 256.
Proof. apply N.ltb_lt. destruct b; reflexivity. Qed.

Lemma byte_of_code_to_N (b : byte) : byte_of_code (Byte.to_N b) = b.
Proof. destruct b; reflexivity. Qed.

(** Every alphabet character decodes back, is neither [=], [,] nor
    whitespace. *)
Definition b64_char_ok (k : N) : bool :=
  match b64_value (b64_char k) with Some v => N.eqb v k | None => false end
  && negb (N.eqb (b64_char k) pad_char) && negb (N.eqb (b64_char k) comma)
  && negb (ascii_whitespace (b64_char k)).

Lemma b64_char_ok_all (k : N) : k < 64 -> b64_char_ok k = true.
Proof.
  intros Hk.
  assert (Hall : forallb b64_char_ok (map N.of_nat (seq 0 64)) = true)
    by (vm_compute; reflexivity).
  rewrite forallb_forall in Hall. apply Hall.
  rewrite <- (N2Nat.id k). apply in_map, in_seq. lia.
Qed.

Lemma b64_char_props (k : N) : k < 64 ->
  b64_value (b64_char k) = Some k /\ b64_char k <> pad_char /\
  b64_char k <> comma /\ ascii_whitespace (b64_char k) = false.
Proof.
  intros Hk. pose proof (b64_char_ok_all k Hk) as H. unfold b64_char_ok in H.
  destruct (b64_value (b64_char k)) as [v|] eqn:Ev; [|discriminate].
  apply andb_prop in H as [H Hw]. apply andb_prop in H as [H Hc].
  apply andb_prop in H as [Hv Hp].
  apply N.eqb_eq in Hv. subst v.
  apply negb_true_iff, N.eqb_neq in Hp. apply negb_true_iff, N.eqb_neq in Hc.
  apply negb_true_iff in Hw. auto.
Qed.

(** Replace [a / m] and [a mod m] by fresh variables related to [a]. *)
Ltac div_facts a m :=
  pose proof (N.div_mod a m ltac:(lia)); pose proof (N.mod_lt a m ltac:(lia));
  generalize dependent (a mod m); generalize dependent (a / m); intros.

Lemma group_lt (a b c : N) : a < 256 -> b < 256 -> c < 256 ->
  a / 4 < 64 /\ (a mod 4) * 16 + b / 16 < 64 /\
  (b mod 16) * 4 + c / 64 < 64 /\ c mod 64 < 64 /\ (b mod 16) * 4 < 64 /\
  (a mod 4) * 16 < 64.
Proof.
  intros Ha Hb Hc. div_facts a 4. div_facts b 16. div_facts c 64.
  repeat split; lia.
Qed.

Lemma sextets_lt (bs : list byte) : Forall (fun v => v < 64) (sextets bs).
Proof.
  induction bs as [| x | x y | x y z r IH] using bytes_ind3; simpl.
  - constructor.
  - destruct (group_lt (Byte.to_N x) 0 0 (to_N_lt x) ltac:(lia) ltac:(lia))
      as (H1 & _ & _ & _ & _ & H6).
    repeat constructor; assumption.
  - destruct (group_lt (Byte.to_N x) (Byte.to_N y) 0 (to_N_lt x) (to_N_lt y) ltac:(lia))
      as (H1 & H2 & _ & _ & H5 & _).
    repeat constructor; assumption.
  - destruct (group_lt (Byte.to_N x) (Byte.to_N y) (Byte.to_N z)
                (to_N_lt x) (to_N_lt y) (to_N_lt z)) as (H1 & H2 & H3 & H4 & _).
    repeat constructor; assumption.
Qed.

Lemma decode_group3 (a b c : N) : a < 256 -> b < 256 -> c < 256 ->
  let n := (a / 4) * 262144 + ((a mod 4) * 16 + b / 16) * 4096
           + ((b mod 16) * 4 + c / 64) * 64 + c mod 64 in
  n / 65536 = a /\ (n / 256) mod 256 = b /\ n mod 256 = c.
Proof.
  intros Ha Hb Hc n. subst n.
  assert (E : (a / 4) * 262144 + ((a mod 4) * 16 + b / 16) * 4096
              + ((b mod 16) * 4 + c / 64) * 64 + c mod 64 = 65536 * a + 256 * b + c)
    by (div_facts a 4; div_facts b 16; div_facts c 64; lia).
  rewrite E. split; [|split].
  - symmetry. apply (N.div_unique _ _ _ (256 * b + c)); lia.
  - rewrite <- (N.div_unique (65536 * a + 256 * b + c) 256 (256 * a + b) c) by lia.
    symmetry. apply (N.mod_unique _ _ a); lia.
  - symmetry. apply (N.mod_unique _ _ (256 * a + b)); lia.
Qed.

Lemma decode_group2 (a b : N) : a < 256 -> b < 256 ->
  let n := ((a / 4) * 4096 + ((a mod 4) * 16 + b / 16) * 64 + (b mod 16) * 4) / 4 in
  n / 256 = a /\ n mod 256 = b.
Proof.
  intros Ha Hb n. subst n.
  assert (E : (a / 4) * 4096 + ((a mod 4) * 16 + b / 16) * 64 + (b mod 16) * 4
              = 4 * (256 * a + b)) by (div_facts a 4; div_facts b 16; lia).
  rewrite E, N.mul_comm, N.div_mul by lia. split.
  - symmetry. apply (N.div_unique _ _ _ b); lia.
  - symmetry. apply (N.mod_unique _ _ a); lia.
Qed.

Lemma decode_group1 (a : N) : a < 256 -> ((a / 4) * 64 + (a mod 4) * 16) / 16 = a.
Proof.
  intros Ha.
  assert (E : (a / 4) * 64 + (a mod 4) * 16 = a * 16) by (div_facts a 4; lia).
  rewrite E. apply N.div_mul. lia.
Qed.

Lemma decode_sextets (bs : list byte) :
  decode_values (sextets bs) = map Byte.to_N bs.
Proof.
  induction bs as [| x | x y | x y z r IH] using bytes_ind3.
  - reflexivity.
  - simpl. rewrite (decode_group1 _ (to_N_lt x)). reflexivity.
  - simpl. destruct (decode_group2 _ _ (to_N_lt x) (to_N_lt y)) as [-> ->].
    reflexivity.
  - cbn [sextets app decode_values].
    destruct (decode_group3 _ _ _ (to_N_lt x) (to_N_lt y) (to_N_lt z)) as (-> & -> & ->).
    rewrite IH. reflexivity.
Qed.

Lemma values_of_map (vs : list N) :
  Forall (fun v => v < 64) vs -> values_of (map b64_char vs) = Some vs.
Proof.
  induction 1 as [|v vs Hv _ IH]; [reflexivity|].
  simpl. destruct (b64_char_props v Hv) as (-> & _). rewrite IH. reflexivity.
Qed.

Lemma filter_no_whitespace (vs : list N) (p : nat) :
  Forall (fun v => v < 64) vs ->
  List.filter (fun c => negb (ascii_whitespace c))
    (map b64_char vs ++ repeat pad_char p) = map b64_char vs ++ repeat pad_char p.
Proof.
  induction 1 as [|v vs Hv _ IH].
  - simpl. induction p as [|p IHp]; [reflexivity|]. simpl. rewrite IHp. reflexivity.
  - simpl. destruct (b64_char_props v Hv) as (_ & _ & _ & ->). simpl.
    rewrite IH. reflexivity.
Qed.

Lemma strip_padding_no_pad (s : jsstr) :
  Forall (fun c => c <> pad_char) s -> strip_padding s = s.
Proof.
  intros Hs. unfold strip_padding.
  assert (Hr : Forall (fun c => c <> pad_char) (rev s)) by (apply Forall_rev; exact Hs).
  destruct (rev s) as [|p [|q r]] eqn:E; [reflexivity| |].
  - inversion Hr as [|? ? Hp _]. apply N.eqb_neq in Hp. rewrite Hp. reflexivity.
  - inversion Hr as [|? ? Hp _]. apply N.eqb_neq in Hp. rewrite Hp. reflexivity.
Qed.

Lemma strip_padding_pad (s : jsstr) (p : nat) :
  Forall (fun c => c <> pad_char) s -> (p <= 2)%nat ->
  strip_padding (s ++ repeat pad_char p) = s.
Proof.
  intros Hs Hp.
  destruct p as [|[|[|p]]]; [| | |lia].
  - rewrite app_nil_r. apply strip_padding_no_pad, Hs.
  - unfold strip_padding. rewrite rev_app_distr. simpl.
    assert (Hr : Forall (fun c => c <> pad_char) (rev s)) by (apply Forall_rev; exact Hs).
    destruct (rev s) as [|q r] eqn:E.
    + apply (f_equal (@rev N)) in E. rewrite rev_involutive in E. subst s. reflexivity.
    + inversion Hr as [|? ? Hq _]. apply N.eqb_neq in Hq. rewrite Hq. simpl.
      transitivity (rev (rev s)); [rewrite E; reflexivity | apply rev_involutive].
  - unfold strip_padding. rewrite rev_app_distr. simpl. rewrite rev_involutive.
    reflexivity.
Qed.

Lemma add3_mod3 (n : nat) : Nat.modulo (S (S (S n))) 3 = Nat.modulo n 3.
Proof.
  replace (S (S (S n))) with (n + 1 * 3)%nat by lia. apply Nat.Div0.mod_add.
Qed.

Lemma length_sextets_mod4 (bs : list byte) :
  Nat.modulo (length (sextets bs) + pad_length (length bs)) 4 = 0%nat /\
  Nat.modulo (length (sextets bs)) 4 <> 1%nat.
Proof.
  induction bs as [| x | x y | x y z r IH] using bytes_ind3; try (split; cbn; lia).
  cbn [sextets app length]. unfold pad_length in *. rewrite add3_mod3.
  replace (S (S (S (S (length (sextets r))))))
    with (length (sextets r) + 1 * 4)%nat by lia.
  replace (length (sextets r) + 1 * 4 + _)%nat
    with (length (sextets r) + (match Nat.modulo (length r) 3 with
                                 | 0%nat => 0 | 1%nat => 2 | _ => 1 end) + 1 * 4)%nat by lia.
  rewrite !Nat.Div0.mod_add. exact IH.
Qed.

End Base64Facts.

Module DataUrlFacts.
Import Base64Facts.

Lemma js_split_no_sep (t : jsstr) : ~ In comma t -> js_split comma t = [t].
Proof.
  induction t as [|c t IH]; intros Hn; [reflexivity|].
  simpl. destruct (N.eqb_spec c comma) as [->|Hc].
  - exfalso. apply Hn. left. reflexivity.
  - rewrite IH by (intros Hi; apply Hn; right; exact Hi). reflexivity.
Qed.

Lemma base64_no_comma (bs : list byte) : ~ In comma (buffer_to_base64 bs).
Proof.
  unfold buffer_to_base64. intros Hi. apply in_app_or in Hi as [Hi|Hi].
  - apply in_map_iff in Hi as (v & Hv & Hin).
    pose proof (proj1 (List.Forall_forall _ _) (sextets_lt bs) v Hin) as Hlt.
    destruct (b64_char_props v Hlt) as (_ & _ & Hc & _). contradiction.
  - apply repeat_spec in Hi. discriminate.
Qed.

Lemma split_data_url (bs : list byte) :
  js_split comma (data_url (lit "jpg") bs) =
  [lit "data:image/jpg;base64"; buffer_to_base64 bs].
Proof.
  unfold data_url. simpl. rewrite js_split_no_sep by apply base64_no_comma.
  reflexivity.
Qed.

Lemma atob_buffer_to_base64 (bs : list byte) :
  atob (buffer_to_base64 bs) = Some (map Byte.to_N bs).
Proof.
  pose proof (sextets_lt bs) as Hlt.
  destruct (length_sextets_mod4 bs) as [H4 H1].
  assert (Hnp : Forall (fun c => c <> pad_char) (map b64_char (sextets bs))).
  { apply List.Forall_map. eapply List.Forall_impl; [|exact Hlt].
    intros v Hv. apply (b64_char_props v Hv). }
  assert (Hp : (pad_length (length bs) <= 2)%nat)
    by (unfold pad_length; destruct (Nat.modulo (length bs) 3) as [|[|]]; lia).
  unfold atob, buffer_to_base64. rewrite filter_no_whitespace by exact Hlt.
  cbv beta zeta. rewrite length_app, length_map, repeat_length, H4, Nat.eqb_refl.
  cbv iota.
  rewrite strip_padding_pad by assumption.
  rewrite length_map. apply Nat.eqb_neq in H1. rewrite H1.
  rewrite values_of_map by exact Hlt. rewrite decode_sextets. reflexivity.
Qed.

Lemma convert_data_url (bs : list byte) :
  convertDataURIToUint8Array (data_url (lit "jpg") bs) = Some bs.
Proof.
  unfold convertDataURIToUint8Array. rewrite split_data_url.
  simpl. rewrite atob_buffer_to_base64, map_map.
  rewrite (map_ext _ id) by apply byte_of_code_to_N.
  rewrite map_id. reflexivity.
Qed.

End DataUrlFacts.


(** ** Running the monad *)

Module RunFacts.

Lemma bind_ret {A B} (m : M A) (k : A -> M B) w st a st' :
  m w st = (Ret a, st') -> (m ≫= k) w st = k a w st'.
Proof. intros H. unfold mbind, M_bind. rewrite H. reflexivity. Qed.

Lemma bind_throw {A B} (m : M A) (k : A -> M B) w st e st' :
  m w st = (Throw e, st') -> (m ≫= k) w st = (Throw e, st').
Proof. intros H. unfold mbind, M_bind. rewrite H. reflexivity. Qed.

Lemma bind_exit {A B} (m : M A) (k : A -> M B) w st c st' :
  m w st = (Exit c, st') -> (m ≫= k) w st = (Exit c, st').
Proof. intros H. unfold mbind, M_bind. rewrite H. reflexivity. Qed.

Lemma posts_in_app (a b : list event) : posts_in (a ++ b) = posts_in a ++ posts_in b.
Proof. induction a as [|[] a IH]; simpl; rewrite ?IH; reflexivity. Qed.

Lemma pipeResponse_no_reset (w : world) (st : state) (url dest : jsstr) (response : http_response) :
  w_reset w url = None ->
  pipeResponse url response dest w st = saveImageToFile response dest w st.
Proof. intros Hr. unfold pipeResponse, mbind, M_bind, ask. rewrite Hr. reflexivity. Qed.

(** ** Relations between the states before and after a computation *)

Definition preserves (R : state -> state -> Prop) {A} (m : M A) : Prop :=
  forall w st, R st (snd (m w st)).

Definition same_posts (st st' : state) : Prop := posts_in (st_trace st') = posts_in (st_trace st).
Definition same_fs (st st' : state) : Prop := st_fs st' = st_fs st.

Lemma same_posts_refl st : same_posts st st.
Proof. reflexivity. Qed.
Lemma same_posts_trans a b c : same_posts a b -> same_posts b c -> same_posts a c.
Proof. unfold same_posts. congruence. Qed.
Lemma same_fs_refl st : same_fs st st.
Proof. reflexivity. Qed.
Lemma same_fs_trans a b c : same_fs a b -> same_fs b c -> same_fs a c.
Proof. unfold same_fs. congruence. Qed.

Section Preserves.
Variable R : state -> state -> Prop.
Hypothesis R_refl : forall st, R st st.
Hypothesis R_trans : forall a b c, R a b -> R b c -> R a c.

Lemma pr_bind {A B} (m : M A) (k : A -> M B) :
  preserves R m -> (forall a, preserves R (k a)) -> preserves R (m ≫= k).
Proof.
  intros Hm Hk w st. specialize (Hm w st). unfold mbind, M_bind.
  destruct (m w st) as [[a|e|c] st'] eqn:E; simpl in *; [|exact Hm|exact Hm].
  eapply R_trans; [exact Hm|apply Hk].
Qed.

Lemma pr_try_catch {A} (m : M A) (h : js_error -> M A) :
  preserves R m -> (forall e, preserves R (h e)) -> preserves R (try_catch m h).
Proof.
  intros Hm Hh w st. specialize (Hm w st). unfold try_catch.
  destruct (m w st) as [[a|e|c] st'] eqn:E; simpl in *; [exact Hm| |exact Hm].
  eapply R_trans; [exact Hm|apply Hh].
Qed.

Lemma pr_background (m : M unit) : preserves R m -> preserves R (background m).
Proof.
  intros Hm w st. specialize (Hm w st). unfold background.
  destruct (m w st) as [[a|e|c] st']; exact Hm.
Qed.

Lemma pr_ret {A} (a : A) : preserves R (mret a).
Proof. intros w st. apply R_refl. Qed.
Lemma pr_throw {A} (e : js_error) : preserves R (A:=A) (throw e).
Proof. intros w st. apply R_refl. Qed.
Lemma pr_ask : preserves R ask.
Proof. intros w st. apply R_refl. Qed.
Lemma pr_get_state : preserves R get_state.
Proof. intros w st. apply R_refl. Qed.

End Preserves.

Lemma posts_emit (ev : event) : (forall p, ev <> EvPost p) -> preserves same_posts (emit ev).
Proof.
  intros Hev w st. unfold same_posts, emit, log_event. simpl. rewrite posts_in_app.
  destruct ev; try (exfalso; eapply Hev; reflexivity); simpl; apply app_nil_r.
Qed.
Lemma posts_write_file p bs : preserves same_posts (write_file p bs).
Proof. intros w st. unfold same_posts. simpl. rewrite posts_in_app. apply app_nil_r. Qed.
Lemma posts_unlink_file p : preserves same_posts (unlink_file p).
Proof. intros w st. unfold same_posts. simpl. rewrite posts_in_app. apply app_nil_r. Qed.
Lemma posts_make_dir p : preserves same_posts (make_dir p).
Proof. intros w st. unfold same_posts. simpl. rewrite posts_in_app. apply app_nil_r. Qed.
Lemma posts_process_exit {A} c : preserves same_posts (A:=A) (process_exit c).
Proof. intros w st. unfold same_posts. simpl. rewrite posts_in_app. apply app_nil_r. Qed.
Lemma posts_uncaught {A} e : preserves same_posts (A:=A) (uncaught e).
Proof. intros w st. unfold same_posts. simpl. rewrite !posts_in_app. simpl. rewrite !app_nil_r. reflexivity. Qed.

Lemma fs_emit (ev : event) : preserves same_fs (emit ev).
Proof. intros w st. reflexivity. Qed.
Lemma fs_process_exit {A} c : preserves same_fs (A:=A) (process_exit c).
Proof. intros w st. reflexivity. Qed.

Create HintDb trace.
#[local] Hint Resolve same_posts_refl same_posts_trans same_fs_refl same_fs_trans
  pr_ret pr_throw pr_ask pr_get_state posts_write_file posts_unlink_file posts_make_dir
  posts_process_exit posts_uncaught fs_emit fs_process_exit : trace.
#[local] Hint Extern 1 (preserves same_posts (emit _)) =>
  apply posts_emit; let p := fresh in intros p; discriminate : trace.

Ltac pr_step :=
  match goal with
  | |- preserves _ (_ ≫= _) => apply pr_bind; [auto with trace..| |intros ?]
  | |- preserves _ (try_catch _ _) => apply pr_try_catch; [auto with trace..| |intros ?]
  | |- preserves _ (background _) => apply pr_background; [auto with trace..|]
  | |- preserves _ (match ?x with _ => _ end) => destruct x
  | |- preserves _ (if ?b then _ else _) => destruct b
  end.

Ltac pr_solve := repeat (pr_step || eauto with trace).

Lemma ensureTodayFolder_posts : preserves same_posts ensureTodayFolder.
Proof. unfold ensureTodayFolder. pr_solve. Qed.

Lemma downloadImage_posts (url dest : jsstr) : preserves same_posts (downloadImage url dest).
Proof.
  unfold downloadImage, getInListener, getRedirected, pipeResponse, saveImageToFile.
  pr_solve.
Qed.

Lemma getImageDescription_posts : preserves same_posts getImageDescription.
Proof. unfold getImageDescription, getImageDataUrl. pr_solve. Qed.

Lemma getImageDescription_fs : preserves same_fs getImageDescription.
Proof. unfold getImageDescription, getImageDataUrl. pr_solve. Qed.

(** The relation at a run that ended with a given outcome. *)
Lemma preserves_at (R : state -> state -> Prop) {A} (m : M A) w st o st' :
  preserves R m -> m w st = (o, st') -> R st st'.
Proof. intros Hm E. specialize (Hm w st). rewrite E in Hm. exact Hm. Qed.

End RunFacts.

Module DescriptionFacts.

(** How [getImageDescription] ends once the token is set, the image file
    holds [bs] and the inference call resolved with [response]. *)
Lemma getImageDataUrl_read (w : world) (st : state) (fmt : jsstr) (bs : list byte) :
  w_read_fails w imageDest = false -> st_fs st !! imageDest = Some bs ->
  getImageDataUrl imageDest fmt w st = (Ret (data_url fmt bs), st).
Proof.
  intros Hr Hfs. unfold getImageDataUrl, mbind, M_bind, ask, get_state. simpl.
  rewrite Hr, Hfs. reflexivity.
Qed.

Lemma getImageDescription_resolved (w : world) (st : state) (token : jsstr)
    (bs : list byte) (response : chat_response) :
  env_KEY_GITHUB_TOKEN w = Some token -> js_truthy token = true ->
  w_read_fails w imageDest = false -> st_fs st !! imageDest = Some bs ->
  w_chat w (data_url (lit "jpg") bs) = inr response ->
  getImageDescription w st =
    (match error_guard response with
     | Some message => Throw (Error message)
     | None =>
         match body_choices (body response) with
         | Some [] => Throw (TypeError
                        (lit "Cannot read properties of undefined (reading 'message')"))
         | Some (choice :: _) =>
             match content choice with
             | Some c => if js_truthy c then Ret c else Ret no_description
             | None => Ret no_description
             end
         | None => Throw (Error (lit "Unexpected response format"))
         end
     end, log_event st (EvChat (data_url (lit "jpg") bs))).
Proof.
  intros Htok Htr Hr Hfs Hchat.
  unfold getImageDescription. unfold mbind at 1, M_bind at 1, ask at 1.
  rewrite Htok, Htr.
  unfold mbind at 1, M_bind at 1.
  rewrite (getImageDataUrl_read w st (lit "jpg") bs Hr Hfs).
  unfold mbind at 1, M_bind at 1, emit at 1. rewrite Hchat.
  destruct (error_guard response); [reflexivity|].
  destruct (body_choices (body response)) as [[|choice rest]|]; [reflexivity| |reflexivity].
  destruct (content choice) as [c|]; [destruct (js_truthy c)|]; reflexivity.
Qed.

(** What [getImageDescription] resolves to: the non-empty content of the
    first choice of the answer to the data URL of the stored image, or the
    fallback text. *)
Lemma getImageDescription_ret (w : world) (st st' : state) (d : jsstr) :
  getImageDescription w st = (Ret d, st') ->
  js_truthy d = true /\
  (d = no_description \/
   exists bs response choice rest,
     st_fs st !! imageDest = Some bs /\
     w_chat w (data_url (lit "jpg") bs) = inr response /\
     error_guard response = None /\
     body_choices (body response) = Some (choice :: rest) /\ content choice = Some d).
Proof.
  unfold getImageDescription, getImageDataUrl, mbind, M_bind, ask, get_state, emit,
    throw, mret, M_ret.
  repeat case_match; intros Hrun; simplify_eq;
    (split; [reflexivity || assumption|]);
    first [left; reflexivity | right; eauto 10].
Qed.

End DescriptionFacts.

(** ** Which computations can end the process *)

Module ExitFacts.

(** [m] ends the process only with status 1, through [getImageDataUrl]'s
    [process.exit(1)] or an uncaught exception of [https.get]. *)
Definition exits_known {A} (m : M A) : Prop :=
  forall w st c st', m w st = (Exit c, st') -> c = 1 /\ exit_trace w (st_trace st').

Create HintDb exits.

Lemma ew_bind {A B} (m : M A) (k : A -> M B) :
  exits_known m -> (forall a, exits_known (k a)) -> exits_known (m ≫= k).
Proof.
  intros Hm Hk w st c st'. unfold mbind, M_bind.
  destruct (m w st) as [[a|e|c'] s] eqn:E.
  - apply Hk.
  - discriminate.
  - intros Hc. injection Hc as <- <-. exact (Hm w st c' s E).
Qed.

Lemma ew_try_catch {A} (m : M A) (h : js_error -> M A) :
  exits_known m -> (forall e, exits_known (h e)) -> exits_known (try_catch m h).
Proof.
  intros Hm Hh w st c st'. unfold try_catch.
  destruct (m w st) as [[a|e|c'] s] eqn:E.
  - discriminate.
  - apply Hh.
  - intros Hc. injection Hc as <- <-. exact (Hm w st c' s E).
Qed.

Lemma ew_background (m : M unit) : exits_known m -> exits_known (background m).
Proof.
  intros Hm w st c st'. unfold background.
  destruct (m w st) as [[a|e|c'] s] eqn:E; try discriminate.
  intros Hc. injection Hc as <- <-. exact (Hm w st c' s E).
Qed.

Ltac never_exits := intros w st c st' H; discriminate H.

Lemma ew_ret {A} (a : A) : exits_known (mret a).
Proof. never_exits. Qed.
Lemma ew_throw {A} (e : js_error) : exits_known (A:=A) (throw e).
Proof. never_exits. Qed.
Lemma ew_ask : exits_known ask.
Proof. never_exits. Qed.
Lemma ew_get_state : exits_known get_state.
Proof. never_exits. Qed.
Lemma ew_emit (ev : event) : exits_known (emit ev).
Proof. never_exits. Qed.
Lemma ew_write_file (p : jsstr) (bs : list byte) : exits_known (write_file p bs).
Proof. never_exits. Qed.
Lemma ew_unlink_file (p : jsstr) : exits_known (unlink_file p).
Proof. never_exits. Qed.
Lemma ew_make_dir (p : jsstr) : exits_known (make_dir p).
Proof. never_exits. Qed.

Lemma ew_getImageDataUrl (imageFormat : jsstr) :
  exits_known (getImageDataUrl imageDest imageFormat).
Proof.
  intros w st c st'. unfold getImageDataUrl, mbind, M_bind, ask, get_state. simpl.
  destruct (if w_read_fails w imageDest then None else st_fs st !! imageDest); [discriminate|].
  unfold emit, process_exit. simpl. intros H. injection H as <- <-. split; [reflexivity|].
  left. exists (st_trace st). simpl. rewrite <- app_assoc. reflexivity.
Qed.

Lemma ew_getInListener (loc : jsstr) : exits_known (getInListener loc).
Proof.
  intros w st c st'. unfold getInListener, mbind, M_bind, ask.
  destruct (w_url_error w loc) as [e|] eqn:Hu; [|discriminate].
  unfold uncaught. intros H. injection H as <- <-. split; [reflexivity|].
  right. exists (st_trace st), loc, e. split; [exact Hu|].
  simpl. rewrite <- app_assoc. reflexivity.
Qed.

#[local] Hint Resolve ew_ret ew_throw ew_ask ew_get_state ew_emit ew_write_file
  ew_unlink_file ew_make_dir ew_getImageDataUrl ew_getInListener : exits.

Ltac exits_step :=
  match goal with
  | |- exits_known (_ ≫= _) => apply ew_bind; [|intros ?]
  | |- exits_known (try_catch _ _) => apply ew_try_catch; [|intros ?]
  | |- exits_known (background _) => apply ew_background
  | |- exits_known (match ?x with _ => _ end) => destruct x
  | |- exits_known (if ?b then _ else _) => destruct b
  end.

Ltac exits_solve := repeat (exits_step || eauto with exits).

Lemma ew_downloadImage (url dest : jsstr) : exits_known (downloadImage url dest).
Proof.
  unfold downloadImage, getRedirected, pipeResponse, saveImageToFile. exits_solve.
Qed.
#[local] Hint Resolve ew_downloadImage : exits.

Lemma ew_getImageDescription : exits_known getImageDescription.
Proof. unfold getImageDescription. exits_solve. Qed.
#[local] Hint Resolve ew_getImageDescription : exits.

Lemma ew_getPostText : exits_known getPostText.
Proof.
  unfold getPostText, ensureTodayFolder, downloadStep, describeStep, publishStep.
  exits_solve.
Qed.
#[local] Hint Resolve ew_getPostText : exits.



End ExitFacts.

(** ** The claims *)

(** C1: truncation of the description (lines 136-140).  A string of at
    most 300 code units is returned unchanged; a longer one becomes its
    first 300 code units followed by "...", 303 code units in all. *)
Theorem truncateDescription_spec (s : jsstr) :
  ((js_length s <= 300)%nat -> truncateDescription s = s) /\
  ((300 < js_length s)%nat ->
     js_length (truncateDescription s) = 303%nat /\
     firstn 300 (truncateDescription s) = firstn 300 s /\
     skipn 300 (truncateDescription s) = lit "...").
Proof.
  unfold truncateDescription, maxGraphemes, js_slice0, js_length.
  destruct (Nat.ltb_spec 300 (length s)) as [Hlt|Hge]; split; intros H; try lia.
  - assert (Hf : length (firstn 300 s) = 300%nat) by (rewrite length_firstn; lia).
    split; [|split].
    + rewrite length_app, Hf. reflexivity.
    + rewrite firstn_app, Hf, Nat.sub_diag, firstn_O, app_nil_r.
      rewrite firstn_firstn. reflexivity.
    + rewrite skipn_app, Hf, Nat.sub_diag, skipn_O, skipn_all2 by lia. reflexivity.
  - reflexivity.
Qed.

Lemma truncateDescription_spec_witness :
  truncateDescription (repeat 97 301) = repeat 97 300 ++ lit "..." /\
  js_length (truncateDescription (repeat 97 301)) = 303%nat.
Proof.
  split; [reflexivity|].
  apply (proj2 (truncateDescription_spec (repeat 97 301))).
  unfold js_length. rewrite repeat_length. lia.
Defined.

(** C10: the image bytes survive the base64 data URI.  Reading a stored
    file [bs] through [getImageDataUrl] and decoding the URI with
    [convertDataURIToUint8Array] gives back exactly [bs], so the uploaded
    blob has the bytes of the stored image. *)
Theorem uploaded_bytes_roundtrip (w : world) (st : state) (bs : list byte) :
  st_fs st !! imageDest = Some bs -> w_read_fails w imageDest = false ->
  exists dataURI,
    getImageDataUrl imageDest (lit "jpg") w st = (Ret dataURI, st) /\
    convertDataURIToUint8Array dataURI = Some bs.
Proof.
  intros Hfs Hr. exists (data_url (lit "jpg") bs). split.
  - unfold getImageDataUrl, mbind, M_bind, ask, get_state. simpl.
    rewrite Hr, Hfs. reflexivity.
  - apply DataUrlFacts.convert_data_url.
Qed.

Lemma uploaded_bytes_roundtrip_witness :
  st_fs Samples.st_img !! imageDest = Some [x58] /\
  exists dataURI,
    getImageDataUrl imageDest (lit "jpg") Samples.w_ok Samples.st_img = (Ret dataURI, Samples.st_img) /\
    convertDataURIToUint8Array dataURI = Some [x58].
Proof.
  split; [reflexivity|].
  apply uploaded_bytes_roundtrip; reflexivity.
Defined.

(** C4: when the write stream to the destination reports an error, the
    partial file is unlinked and only then is the promise rejected: the
    file is gone from the file system when [saveImageToFile] fails. *)
Theorem saveImageToFile_unlinks_on_error (w : world) (st : state)
    (response : http_response) (dest : jsstr) (k : nat) (err : js_error) :
  w_write_fails w dest = Some (k, err) ->
  exists st',
    saveImageToFile response dest w st = (Throw err, st') /\
    st_fs st' !! dest = None /\
    st_trace st' = st_trace st ++ [EvWrite dest (firstn k (resp_body response)); EvUnlink dest].
Proof.
  intros Hw. eexists. split; [|split].
  - unfold saveImageToFile, mbind, M_bind, ask. simpl. rewrite Hw. reflexivity.
  - simpl. apply lookup_delete_eq.
  - simpl. rewrite <- app_assoc. reflexivity.
Qed.

Lemma saveImageToFile_unlinks_on_error_witness :
  w_write_fails Samples.w_disk_full imageDest = Some (2%nat, Error (lit "ENOSPC: no space left on device")) /\
  exists st',
    saveImageToFile Samples.ok_response imageDest Samples.w_disk_full Samples.st0
      = (Throw (Error (lit "ENOSPC: no space left on device")), st') /\
    st_fs st' !! imageDest = None /\
    st_trace st' = st_trace Samples.st0 ++
      [EvWrite imageDest (firstn 2 (resp_body Samples.ok_response)); EvUnlink imageDest].
Proof.
  split; [reflexivity|].
  apply saveImageToFile_unlinks_on_error. reflexivity.
Defined.




(** C6: for a response that does not take the error branch of line 71: a
    first choice with non-empty content gives that content; a body without
    [choices] gives the error "Unexpected response format"; a first choice
    with empty or null content gives "No description available.". *)
Theorem getImageDescription_choices (w : world) (st : state) (token : jsstr)
    (bs : list byte) (response : chat_response) :
  env_KEY_GITHUB_TOKEN w = Some token -> js_truthy token = true ->
  w_read_fails w imageDest = false -> st_fs st !! imageDest = Some bs ->
  w_chat w (data_url (lit "jpg") bs) = inr response ->
  error_guard response = None ->
  (forall choice rest c,
     body_choices (body response) = Some (choice :: rest) ->
     content choice = Some c -> js_truthy c = true ->
     fst (getImageDescription w st) = Ret c) /\
  (body_choices (body response) = None ->
     fst (getImageDescription w st) = Throw (Error (lit "Unexpected response format"))) /\
  (forall choice rest,
     body_choices (body response) = Some (choice :: rest) ->
     content choice = None \/ content choice = Some [] ->
     fst (getImageDescription w st) = Ret no_description).
Proof.
  intros Htok Htr Hr Hfs Hchat Hg.
  rewrite (DescriptionFacts.getImageDescription_resolved w st token bs response
             Htok Htr Hr Hfs Hchat). simpl. rewrite Hg.
  split; [|split].
  - intros choice rest c Hb Hc Ht. rewrite Hb, Hc, Ht. reflexivity.
  - intros Hb. rewrite Hb. reflexivity.
  - intros choice rest Hb [Hc|Hc]; rewrite Hb, Hc; reflexivity.
Qed.

Lemma getImageDescription_choices_witness :
  fst (getImageDescription Samples.w_ok Samples.st_img) = Ret (lit "A cat on a bridge.").
Proof.
  apply (proj1 (getImageDescription_choices Samples.w_ok Samples.st_img (lit "tok") [x58]
                  Samples.cat_reply eq_refl eq_refl eq_refl eq_refl eq_refl eq_refl)
           (mkChoice (Some (lit "A cat on a bridge."))) []); reflexivity.
Defined.

(** C5, at the failing input: the service answers 429 with the error
    object [{message: "rate limited"}] in its body, where the service and
    [@azure-rest/core-client] put it.  Line 71 tests [response.error], a
    property the client's response does not have, so the error branch is
    skipped and the step fails with "Unexpected response format" instead of
    "rate limited". *)
Theorem getImageDescription_rate_limited :
  fst (getImageDescription Samples.w_rate_limited Samples.st_img)
    = Throw (Error (lit "Unexpected response format")).
Proof. vm_compute. reflexivity. Qed.

(** What line 71 does check: an [error] property with a [message] on the
    response object itself, with a status other than "200". *)
Lemma getImageDescription_top_level_error (w : world) (st : state) (token : jsstr)
    (bs : list byte) (response : chat_response) (message : jsstr) :
  env_KEY_GITHUB_TOKEN w = Some token -> js_truthy token = true ->
  w_read_fails w imageDest = false -> st_fs st !! imageDest = Some bs ->
  w_chat w (data_url (lit "jpg") bs) = inr response ->
  status response <> lit "200" -> resp_error response = ErrObject (Some message) ->
  fst (getImageDescription w st) = Throw (Error message).
Proof.
  intros Htok Htr Hr Hfs Hchat Hs He.
  rewrite (DescriptionFacts.getImageDescription_resolved w st token bs response
             Htok Htr Hr Hfs Hchat). simpl.
  unfold error_guard. rewrite bool_decide_false by exact Hs. rewrite He. reflexivity.
Qed.

(** C7: take a run where every external call succeeds: the [today]
    folder is there or is made, the download resolves (directly or through
    the redirect) leaving the bytes [bs] in the image file, the description
    step resolves with [d] (the model's text or the fallback), and the
    image is read back, the login, the upload and the post succeed.  Then
    the run sends exactly one post: its text is the truncated description
    [D], its embed holds one image whose alt text is [D], with aspect ratio
    1000 x 500, and its [createdAt] is the clock's ISO time. *)
Theorem getPostText_post_record (w : world) (st s1 s2 s4 : state) (handle password d : jsstr)
    (bs : list byte) (blob : blob_ref) :
  ensureTodayFolder w st = (Ret tt, s1) ->
  bskyCredentials w = Some (handle, password) ->
  downloadImage imageUrl imageDest w s1 = (Ret tt, s2) ->
  st_fs s2 !! imageDest = Some bs ->
  getImageDescription w (log_event s2 (EvLog (lit "Image downloaded to: " ++ imageDest)))
    = (Ret d, s4) ->
  w_read_fails w imageDest = false ->
  w_login w handle password = None ->
  w_upload w bs = inr blob ->
  let D := truncateDescription d in
  let post := {| text := D; embed_type := lit "app.bsky.embed.images";
                 images := [{| alt := D; image := blob;
                               aspect_width := 1000; aspect_height := 500 |}];
                 createdAt := w_now w |} in
  w_post w post = None ->
  exists st',
    getPostText w st = (Ret (D ++ newline ++ lit "![Image](" ++ imageUrl ++ lit ")"), st') /\
    posts_in (st_trace st') = posts_in (st_trace st) ++ [post].
Proof.
  intros Hens Hcred Hdl Hbs Hdesc Hr Hlogin Hup D post Hpost.
  set (s3 := log_event s2 (EvLog (lit "Image downloaded to: " ++ imageDest))) in *.
  pose proof (RunFacts.preserves_at _ _ _ _ _ _ RunFacts.ensureTodayFolder_posts Hens) as Hp1.
  pose proof (RunFacts.preserves_at _ _ _ _ _ _ (RunFacts.downloadImage_posts _ _) Hdl) as Hp2.
  pose proof (RunFacts.preserves_at _ _ _ _ _ _ RunFacts.getImageDescription_posts Hdesc) as Hp4.
  pose proof (RunFacts.preserves_at _ _ _ _ _ _ RunFacts.getImageDescription_fs Hdesc) as Hf4.
  destruct (DescriptionFacts.getImageDescription_ret w s3 s4 d Hdesc) as [Hd _].
  unfold RunFacts.same_posts, RunFacts.same_fs in *.
  set (s5 := log_event s4 (EvLog (lit "Image description received: " ++ d))).
  assert (Hfs5 : st_fs s5 !! imageDest = Some bs) by (simpl; rewrite Hf4; exact Hbs).
  eexists. split.
  - unfold getPostText. unfold mbind at 1, M_bind at 1. rewrite Hens.
    unfold mbind at 1, M_bind at 1, ask at 1. rewrite Hcred.
    unfold mbind at 1, M_bind at 1. unfold downloadStep, try_catch.
    unfold mbind at 1, M_bind at 1. rewrite Hdl.
    unfold mbind at 1, M_bind at 1, emit at 1. fold s3.
    unfold mret at 1, M_ret at 1.
    unfold mbind at 1, M_bind at 1. unfold describeStep, try_catch.
    unfold mbind at 1, M_bind at 1. rewrite Hdesc. rewrite Hd.
    unfold mbind at 1, M_bind at 1, emit at 1. fold s5.
    unfold mret at 1, M_ret at 1.
    unfold publishStep. unfold mbind at 1, M_bind at 1, ask at 1.
    unfold mbind at 1, M_bind at 1, emit at 1. rewrite Hlogin.
    unfold mbind at 1, M_bind at 1.
    rewrite (DescriptionFacts.getImageDataUrl_read w _ (lit "jpg") bs Hr) by exact Hfs5.
    rewrite DataUrlFacts.convert_data_url.
    unfold mbind at 1, M_bind at 1, emit at 1. rewrite Hup.
    unfold mbind at 1, M_bind at 1, emit at 1.
    change (make_post (truncateDescription d) blob (w_now w)) with post.
    rewrite Hpost. reflexivity.
  - simpl. rewrite !RunFacts.posts_in_app. simpl. rewrite !app_nil_r.
    rewrite Hp4. simpl. rewrite RunFacts.posts_in_app, Hp2, Hp1. simpl.
    rewrite app_nil_r. reflexivity.
Qed.

Lemma getPostText_post_record_witness :
  exists st',
    getPostText Samples.w_redirected Samples.st0 =
      (Ret (no_description ++ newline ++ lit "![Image](" ++ imageUrl ++ lit ")"), st') /\
    posts_in (st_trace st') = posts_in (st_trace Samples.st0) ++
      [{| text := no_description; embed_type := lit "app.bsky.embed.images";
          images := [{| alt := no_description; image := lit "blob1";
                        aspect_width := 1000; aspect_height := 500 |}];
          createdAt := lit "2026-10-17T00:00:00.000Z" |}].
Proof.
  apply (getPostText_post_record Samples.w_redirected Samples.st0
           (snd (ensureTodayFolder Samples.w_redirected Samples.st0))
           (snd (downloadImage imageUrl imageDest Samples.w_redirected
                   (snd (ensureTodayFolder Samples.w_redirected Samples.st0))))
           (snd (getImageDescription Samples.w_redirected
                   (log_event (snd (downloadImage imageUrl imageDest Samples.w_redirected
                                      (snd (ensureTodayFolder Samples.w_redirected Samples.st0))))
                      (EvLog (lit "Image downloaded to: " ++ imageDest)))))
           (lit "bot.bsky.social") (lit "pw") no_description [x58] (lit "blob1"));
    vm_compute; reflexivity.
Defined.

(** C2, as the code does it: once the [today] folder is ensured and the
    credentials are set, a failure of the download or of the description
    step is caught and logged, and [getPostText] then returns the
    placeholder at once ([return] inside the [catch]): nothing runs after
    it, so there is no login, upload or post; [main] then logs the
    placeholder as the posted text. *)
Theorem getPostText_returns_placeholder (w : world) (st st1 : state) (handle password : jsstr) :
  ensureTodayFolder w st = (Ret tt, st1) ->
  bskyCredentials w = Some (handle, password) ->
  let posted (t : jsstr) := EvLog (lit "[" ++ w_now w ++ lit "] Posted: " ++ dquote ++ t ++ dquote) in
  (forall e st2,
     downloadImage imageUrl imageDest w st1 = (Throw e, st2) ->
     let st3 := log_event st2 (EvError error_downloading) in
     getPostText w st = (Ret error_downloading, st3) /\
     main w st = (Ret tt, log_event st3 (posted error_downloading))) /\
  (forall st2 e st3,
     downloadImage imageUrl imageDest w st1 = (Ret tt, st2) ->
     getImageDescription w (log_event st2 (EvLog (lit "Image downloaded to: " ++ imageDest)))
       = (Throw e, st3) ->
     let st4 := log_event st3 (EvError error_describing) in
     getPostText w st = (Ret error_describing, st4) /\
     main w st = (Ret tt, log_event st4 (posted error_describing))).
Proof.
  intros Hens Hcred posted.
  assert (Hmain : forall t st', getPostText w st = (Ret t, st') ->
            main w st = (Ret tt, log_event st' (posted t))).
  { intros t st' Hg. unfold main, try_catch. unfold mbind at 1, M_bind at 1. rewrite Hg.
    reflexivity. }
  split.
  - intros e st2 Hd st3.
    assert (Hg : getPostText w st = (Ret error_downloading, st3)).
    { unfold getPostText. unfold mbind at 1, M_bind at 1. rewrite Hens.
      unfold mbind at 1, M_bind at 1, ask at 1. rewrite Hcred.
      unfold mbind at 1, M_bind at 1. unfold downloadStep, try_catch.
      unfold mbind at 1, M_bind at 1. rewrite Hd. reflexivity. }
    split; [exact Hg|]. apply Hmain. exact Hg.
  - intros st2 e st3 Hd He st4.
    assert (Hg : getPostText w st = (Ret error_describing, st4)).
    { unfold getPostText. unfold mbind at 1, M_bind at 1. rewrite Hens.
      unfold mbind at 1, M_bind at 1, ask at 1. rewrite Hcred.
      unfold mbind at 1, M_bind at 1. unfold downloadStep, try_catch.
      unfold mbind at 1, M_bind at 1. rewrite Hd.
      unfold mbind at 1, M_bind at 1, emit at 1, mret at 1, M_ret at 1.
      unfold mbind at 1, M_bind at 1. unfold describeStep, try_catch.
      unfold mbind at 1, M_bind at 1. rewrite He. reflexivity. }
    split; [exact Hg|]. apply Hmain. exact Hg.
Qed.

Lemma getPostText_returns_placeholder_witness :
  main Samples.w_dl_fail Samples.st0 =
    (Ret tt,
     log_event
       (log_event (snd (downloadImage imageUrl imageDest Samples.w_dl_fail
                          (snd (ensureTodayFolder Samples.w_dl_fail Samples.st0))))
          (EvError error_downloading))
       (EvLog (lit "[" ++ w_now Samples.w_dl_fail ++ lit "] Posted: " ++ dquote
               ++ error_downloading ++ dquote))).
Proof.
  apply (proj2 (proj1 (getPostText_returns_placeholder Samples.w_dl_fail Samples.st0
                         (snd (ensureTodayFolder Samples.w_dl_fail Samples.st0))
                         (lit "bot.bsky.social") (lit "pw") eq_refl eq_refl)
                  (Error (lit "getaddrinfo ENOTFOUND")) _ eq_refl)).
Defined.

(** C2 as stated fails: when the camera host cannot be reached, the run
    returns the placeholder and never contacts the posting service. *)
Lemma getPostText_download_failure_counterexample :
  fst (getPostText Samples.w_dl_fail Samples.st0) = Ret error_downloading /\
  existsb publication_event (st_trace (snd (getPostText Samples.w_dl_fail Samples.st0))) = false.
Proof. split; vm_compute; reflexivity. Qed.



(** C9, as the code does it: a missing or empty handle or password makes
    [getPostText] throw right after the [today] folder is ensured, before
    any download, inference or publication call; [main] catches and logs
    the error. *)
Theorem getPostText_missing_credentials (w : world) (st st1 : state) :
  bskyCredentials w = None -> ensureTodayFolder w st = (Ret tt, st1) ->
  getPostText w st = (Throw (Error (lit "Bluesky handle or password is not defined")), st1) /\
  main w st = (Ret tt, log_event st1 (EvError (lit "Error posting to Bluesky:"))).
Proof.
  intros Hcred Hens.
  assert (H : getPostText w st =
    (Throw (Error (lit "Bluesky handle or password is not defined")), st1)).
  { unfold getPostText. unfold mbind at 1, M_bind at 1. rewrite Hens.
    unfold mbind at 1, M_bind at 1, ask at 1. rewrite Hcred. reflexivity. }
  split; [exact H|].
  unfold main, try_catch. unfold mbind at 1, M_bind at 1. rewrite H. reflexivity.
Qed.

Lemma getPostText_missing_credentials_witness :
  getPostText Samples.w_nohandle Samples.st0 =
    (Throw (Error (lit "Bluesky handle or password is not defined")),
     snd (ensureTodayFolder Samples.w_nohandle Samples.st0)).
Proof.
  apply (proj1 (getPostText_missing_credentials Samples.w_nohandle Samples.st0
                  (snd (ensureTodayFolder Samples.w_nohandle Samples.st0)) eq_refl eq_refl)).
Defined.

(** C9 as stated fails: the error is raised before the image is fetched;
    the only effect of the run is the creation of the [today] folder. *)
Lemma getPostText_missing_handle_counterexample :
  fst (getPostText Samples.w_nohandle Samples.st0)
    = Throw (Error (lit "Bluesky handle or password is not defined")) /\
  st_trace (snd (getPostText Samples.w_nohandle Samples.st0)) = [EvMkdir todayFolder].
Proof. split; vm_compute; reflexivity. Qed.


(** ** Further properties of the code *)

Module Extras.

Import ExtraSamples.

(** Closes [~ In c l] for concrete [c] and [l]. *)
Ltac not_in_concrete :=
  let H := fresh in intros H; simpl in H;
  repeat (destruct H as [H|H]; [discriminate H|]); destruct H.

Lemma js_split_sep_app (sep : N) (p r : jsstr) :
  ~ In sep p -> js_split sep (p ++ sep :: r) = p :: js_split sep r.
Proof.
  induction p as [|c p IH]; intros Hn; simpl.
  - rewrite N.eqb_refl. reflexivity.
  - destruct (N.eqb_spec c sep) as [->|Hc].
    + exfalso. apply Hn. left. reflexivity.
    + rewrite IH by (intros Hi; apply Hn; right; exact Hi). reflexivity.
Qed.

Lemma js_split_no_sep' (sep : N) (t : jsstr) : ~ In sep t -> js_split sep t = [t].
Proof.
  induction t as [|c t IH]; intros Hn; [reflexivity|].
  simpl. destruct (N.eqb_spec c sep) as [->|Hc].
  - exfalso. apply Hn. left. reflexivity.
  - rewrite IH by (intros Hi; apply Hn; right; exact Hi). reflexivity.
Qed.

(** [convertDataURIToUint8Array] on a string without a comma:
    [split(',')[1]] is [undefined], [atob(undefined)] decodes the string
    "undefined" (nine characters) and throws. *)
Theorem convertDataURI_no_comma (dataURI : jsstr) :
  ~ In comma dataURI -> convertDataURIToUint8Array dataURI = None.
Proof.
  intros Hn. unfold convertDataURIToUint8Array.
  rewrite js_split_no_sep' by exact Hn. reflexivity.
Qed.

Lemma convertDataURI_no_comma_witness :
  convertDataURIToUint8Array (lit "data:image/jpg;base64") = None.
Proof. apply convertDataURI_no_comma. not_in_concrete. Defined.

(** Only the text between the first and the second comma is decoded:
    anything after a second comma is ignored. *)
Theorem convertDataURI_second_segment (p0 p1 rest : jsstr) :
  ~ In comma p0 -> ~ In comma p1 ->
  convertDataURIToUint8Array (p0 ++ comma :: p1 ++ comma :: rest) =
    match atob p1 with Some s => Some (map byte_of_code s) | None => None end.
Proof.
  intros H0 H1. unfold convertDataURIToUint8Array.
  rewrite js_split_sep_app by exact H0. rewrite js_split_sep_app by exact H1.
  reflexivity.
Qed.

Lemma convertDataURI_second_segment_witness :
  convertDataURIToUint8Array (lit "data:x" ++ comma :: lit "QUJD" ++ comma :: lit "!!") =
    Some [x41; x42; x43].
Proof.
  rewrite convertDataURI_second_segment.
  - vm_compute. reflexivity.
  - not_in_concrete.
  - not_in_concrete.
Defined.

(** Truncating twice is truncating once. *)
Theorem truncateDescription_idempotent (s : jsstr) :
  truncateDescription (truncateDescription s) = truncateDescription s.
Proof.
  unfold truncateDescription, maxGraphemes, js_slice0, js_length.
  destruct (Nat.ltb_spec 300 (length s)) as [Hlt|Hge].
  - assert (Hf : length (firstn 300 s) = 300%nat) by (rewrite length_firstn; lia).
    rewrite length_app, Hf. simpl.
    rewrite firstn_app, Hf, Nat.sub_diag, firstn_O, app_nil_r, firstn_firstn.
    reflexivity.
  - apply Nat.ltb_ge in Hge. rewrite Hge. reflexivity.
Qed.

(** A non-empty description stays non-empty after truncation. *)
Theorem truncateDescription_truthy (s : jsstr) :
  js_truthy s = true -> js_truthy (truncateDescription s) = true.
Proof.
  intros H. unfold truncateDescription.
  destruct (Nat.ltb _ _); [|exact H].
  destruct (js_slice0 s maxGraphemes); reflexivity.
Qed.

Lemma truncateDescription_truthy_witness :
  js_truthy (truncateDescription (lit "A cat")) = true.
Proof. apply truncateDescription_truthy. reflexivity. Defined.

(** [getImageDescription] never resolves to the empty string: it resolves
    either to the non-empty content of the first choice of the service's
    answer to the data URL of the stored image, or to "No description
    available.". *)
Theorem getImageDescription_nonempty (w : world) (st st' : state) (d : jsstr) :
  getImageDescription w st = (Ret d, st') ->
  js_truthy d = true /\
  (d = no_description \/
   exists bs response choice rest,
     st_fs st !! imageDest = Some bs /\
     w_chat w (data_url (lit "jpg") bs) = inr response /\
     error_guard response = None /\
     body_choices (body response) = Some (choice :: rest) /\ content choice = Some d).
Proof. apply DescriptionFacts.getImageDescription_ret. Qed.

Lemma getImageDescription_nonempty_witness :
  js_truthy (lit "A cat on a bridge.") = true /\
  (lit "A cat on a bridge." = no_description \/
   exists bs response choice rest,
     st_fs Samples.st_img !! imageDest = Some bs /\
     w_chat Samples.w_ok (data_url (lit "jpg") bs) = inr response /\
     error_guard response = None /\
     body_choices (body response) = Some (choice :: rest) /\
     content choice = Some (lit "A cat on a bridge.")).
Proof.
  apply (getImageDescription_nonempty Samples.w_ok Samples.st_img
           (snd (getImageDescription Samples.w_ok Samples.st_img))).
  vm_compute. reflexivity.
Defined.

(** Without a (non-empty) API token, [getImageDescription] throws before
    reading the image or calling the service: the state is untouched. *)
Theorem getImageDescription_no_token (w : world) (st : state) :
  (env_KEY_GITHUB_TOKEN w = None \/ env_KEY_GITHUB_TOKEN w = Some []) ->
  getImageDescription w st = (Throw (Error (lit "Azure API token is not defined")), st).
Proof.
  intros [H|H]; unfold getImageDescription, mbind, M_bind, ask; rewrite H; reflexivity.
Qed.

Lemma getImageDescription_no_token_witness :
  getImageDescription w_notoken Samples.st_img =
    (Throw (Error (lit "Azure API token is not defined")), Samples.st_img).
Proof. apply getImageDescription_no_token. left. reflexivity. Defined.

(** A response with an empty [choices] array fails with a [TypeError]
    ([choices[0]] is [undefined]), not with the format error. *)
Theorem getImageDescription_empty_choices (w : world) (st : state) (token : jsstr)
    (bs : list byte) (response : chat_response) :
  env_KEY_GITHUB_TOKEN w = Some token -> js_truthy token = true ->
  w_read_fails w imageDest = false -> st_fs st !! imageDest = Some bs ->
  w_chat w (data_url (lit "jpg") bs) = inr response ->
  error_guard response = None -> body_choices (body response) = Some [] ->
  fst (getImageDescription w st) =
    Throw (TypeError (lit "Cannot read properties of undefined (reading 'message')")).
Proof.
  intros Htok Htr Hr Hfs Hchat Hg Hb.
  rewrite (DescriptionFacts.getImageDescription_resolved w st token bs response
             Htok Htr Hr Hfs Hchat). simpl. rewrite Hg, Hb. reflexivity.
Qed.

Lemma getImageDescription_empty_choices_witness :
  fst (getImageDescription (Samples.set_chat Samples.w_ok (fun _ => inr empty_reply))
         Samples.st_img) =
    Throw (TypeError (lit "Cannot read properties of undefined (reading 'message')")).
Proof.
  apply (getImageDescription_empty_choices _ _ (lit "tok") [x58] empty_reply);
    reflexivity.
Defined.

(** [getImageDataUrl] on a file that is missing or cannot be read logs
    "Could not read '<file>'." and ends the process with status 1. *)
Theorem getImageDataUrl_unreadable (w : world) (st : state) (imageFile imageFormat : jsstr) :
  (w_read_fails w imageFile = true \/ st_fs st !! imageFile = None) ->
  getImageDataUrl imageFile imageFormat w st =
    (Exit 1, log_event (log_event st (EvError (could_not_read imageFile))) (EvExit 1)).
Proof.
  intros Hf. unfold getImageDataUrl, mbind, M_bind, ask, get_state. simpl.
  destruct Hf as [H|H]; rewrite H; [reflexivity|].
  destruct (w_read_fails w imageFile); reflexivity.
Qed.

Lemma getImageDataUrl_unreadable_witness :
  getImageDataUrl imageDest (lit "jpg") Samples.w_ok Samples.st0 =
    (Exit 1, log_event (log_event Samples.st0 (EvError (could_not_read imageDest))) (EvExit 1)).
Proof. apply getImageDataUrl_unreadable. right. reflexivity. Defined.

(** When [https.get(url)] throws (the URL is refused) or the request
    emits ['error'] before any response, [downloadImage] rejects with that
    error and the file system is untouched. *)
Theorem downloadImage_request_error (w : world) (st : state) (url dest : jsstr) (err : js_error) :
  (w_url_error w url = Some err ->
     downloadImage url dest w st = (Throw err, st)) /\
  (w_url_error w url = None -> w_get w url = inl err ->
     downloadImage url dest w st = (Throw err, log_event st (EvGet url)) /\
     st_fs (snd (downloadImage url dest w st)) = st_fs st).
Proof.
  split.
  - intros Hu. unfold downloadImage, mbind, M_bind, ask. rewrite Hu. reflexivity.
  - intros Hu Hg.
    assert (H : downloadImage url dest w st = (Throw err, log_event st (EvGet url))).
    { unfold downloadImage, mbind, M_bind, ask, emit. rewrite Hu, Hg. reflexivity. }
    rewrite H. split; reflexivity.
Qed.

Lemma downloadImage_request_error_witness :
  st_fs (snd (downloadImage imageUrl imageDest Samples.w_dl_fail Samples.st_img))
    = st_fs Samples.st_img.
Proof.
  apply (proj2 (proj2 (downloadImage_request_error Samples.w_dl_fail Samples.st_img imageUrl
                         imageDest (Error (lit "getaddrinfo ENOTFOUND"))) eq_refl eq_refl)).
Defined.

(** On a [302] whose [Location] is an absolute https URL, [downloadImage]
    follows the redirect once and saves the redirected response's body
    whatever its status code, when neither connection is reset. *)
Theorem downloadImage_redirect_saved (w : world) (st : state) (url dest loc : jsstr)
    (response redirected : http_response) :
  w_url_error w url = None -> w_get w url = inr response -> statusCode response = 302 ->
  location response = Some loc -> js_truthy loc = true -> w_url_error w loc = None ->
  w_get w loc = inr redirected -> w_reset w url = None -> w_reset w loc = None ->
  w_write_fails w dest = None ->
  downloadImage url dest w st =
    (Ret tt, mkState (<[dest := resp_body redirected]> (st_fs st)) (st_dirs st)
               (st_trace st ++ [EvGet url; EvGet loc; EvWrite dest (resp_body redirected)])).
Proof.
  intros Hu Hg H302 Hloc Ht Hul Hg2 Hr1 Hr2 Hw.
  unfold downloadImage. unfold mbind at 1, M_bind at 1, ask at 1. rewrite Hu.
  unfold mbind at 1, M_bind at 1, emit at 1. rewrite Hg, Hloc, H302, Ht. simpl.
  unfold mbind at 1, M_bind at 1, getInListener.
  unfold mbind at 1, M_bind at 1, ask at 1. rewrite Hul. unfold emit at 1. rewrite Hr1.
  unfold getRedirected, mbind at 1, M_bind at 1, ask at 1. rewrite Hg2.
  rewrite RunFacts.pipeResponse_no_reset by exact Hr2.
  unfold saveImageToFile, mbind, M_bind, ask. rewrite Hw. unfold write_file, log_event. simpl.
  rewrite <- !app_assoc. reflexivity.
Qed.

Lemma downloadImage_redirect_saved_witness :
  st_fs (snd (downloadImage imageUrl imageDest w_redirect_404 Samples.st0)) !! imageDest
    = Some [x4e].
Proof.
  rewrite (downloadImage_redirect_saved w_redirect_404 Samples.st0 imageUrl imageDest
             (lit "https://cdn.example/img")
             (mkHttpResponse 302 (Some (lit "https://cdn.example/img")) [])
             (mkHttpResponse 404 None [x4e])) by reflexivity.
  simpl. apply lookup_insert_eq.
Defined.

(** When the connection is reset after [k] bytes of a longer 200 body and
    the write stream has not failed by then, [downloadImage] rejects with
    the socket error and leaves a partial file: the destination holds the
    first [k] bytes and is not unlinked. *)
Theorem downloadImage_reset_partial (w : world) (st : state) (url dest : jsstr)
    (response : http_response) (k : nat) (err : js_error) :
  w_url_error w url = None -> w_get w url = inr response -> statusCode response = 200 ->
  w_reset w url = Some (k, err) -> (k < length (resp_body response))%nat ->
  (forall j werr, w_write_fails w dest = Some (j, werr) -> (k < j)%nat) ->
  fst (downloadImage url dest w st) = Throw err /\
  st_fs (snd (downloadImage url dest w st)) !! dest = Some (firstn k (resp_body response)) /\
  (forall p, p <> dest -> st_fs (snd (downloadImage url dest w st)) !! p = st_fs st !! p).
Proof.
  intros Hu Hg H200 Hr Hk Hw.
  assert (H : downloadImage url dest w st =
    (Throw err, mkState (<[dest := firstn k (resp_body response)]> (st_fs st)) (st_dirs st)
                  (st_trace st ++ [EvGet url; EvWrite dest (firstn k (resp_body response))]))).
  { unfold downloadImage. unfold mbind at 1, M_bind at 1, ask at 1. rewrite Hu.
    unfold mbind at 1, M_bind at 1, emit at 1. rewrite Hg, H200.
    assert (Hp : pipeResponse url response dest w (log_event st (EvGet url)) =
      (Throw err, mkState (<[dest := firstn k (resp_body response)]> (st_fs st)) (st_dirs st)
                    (st_trace st ++ [EvGet url; EvWrite dest (firstn k (resp_body response))]))).
    { unfold pipeResponse, mbind, M_bind, ask. rewrite Hr.
      apply Nat.ltb_lt in Hk. rewrite Hk.
      destruct (w_write_fails w dest) as [[j werr]|] eqn:Hwf.
      - pose proof (Hw j werr eq_refl) as Hj.
        assert (Hl : Nat.leb j k = false) by (apply Nat.leb_gt; exact Hj). rewrite Hl.
        unfold write_file, throw, log_event. simpl. rewrite <- app_assoc. reflexivity.
      - unfold write_file, throw, log_event. simpl. rewrite <- app_assoc. reflexivity. }
    destruct (location response); [simpl|]; exact Hp. }
  rewrite H. simpl. split; [reflexivity|split].
  - apply lookup_insert_eq.
  - intros p Hp. apply lookup_insert_ne. congruence.
Qed.

Lemma downloadImage_reset_partial_witness :
  fst (downloadImage imageUrl imageDest w_reset_midway Samples.st0)
    = Throw (Error (lit "read ECONNRESET")) /\
  st_fs (snd (downloadImage imageUrl imageDest w_reset_midway Samples.st0)) !! imageDest
    = Some [x58].
Proof.
  destruct (downloadImage_reset_partial w_reset_midway Samples.st0 imageUrl imageDest
              (mkHttpResponse 200 None [x58; x59]) 1 (Error (lit "read ECONNRESET")))
    as (H1 & H2 & _); [reflexivity..|simpl; lia|intros j werr H; discriminate H|].
  split; [exact H1|exact H2].
Defined.

(** A successful [saveImageToFile] leaves exactly the response body at the
    destination (replacing any earlier file) and changes no other file. *)
Theorem saveImageToFile_writes_body (w : world) (st : state) (response : http_response)
    (dest : jsstr) :
  w_write_fails w dest = None ->
  fst (saveImageToFile response dest w st) = Ret tt /\
  st_fs (snd (saveImageToFile response dest w st)) !! dest = Some (resp_body response) /\
  (forall p, p <> dest ->
     st_fs (snd (saveImageToFile response dest w st)) !! p = st_fs st !! p).
Proof.
  intros Hw.
  assert (H : saveImageToFile response dest w st =
    (Ret tt, mkState (<[dest := resp_body response]> (st_fs st)) (st_dirs st)
                     (st_trace st ++ [EvWrite dest (resp_body response)]))).
  { unfold saveImageToFile, mbind, M_bind, ask. rewrite Hw. reflexivity. }
  rewrite H. simpl. split; [reflexivity|split].
  - apply lookup_insert_eq.
  - intros p Hp. apply lookup_insert_ne. congruence.
Qed.

Lemma saveImageToFile_writes_body_witness :
  st_fs (snd (saveImageToFile Samples.ok_response imageDest Samples.w_ok Samples.st0))
    !! imageDest = Some [x58].
Proof.
  apply (proj1 (proj2 (saveImageToFile_writes_body Samples.w_ok Samples.st0
                         Samples.ok_response imageDest eq_refl))).
Defined.

(** When [today] does not exist and [fs.mkdirSync] throws, [getPostText]
    rejects with that error before it checks the credentials or sends any
    request, and [main] catches and logs it. *)
Theorem getPostText_mkdir_error (w : world) (st : state) (err : js_error) :
  existsSync st todayFolder = false -> w_mkdir_fails w todayFolder = Some err ->
  getPostText w st = (Throw err, st) /\
  main w st = (Ret tt, log_event st (EvError (lit "Error posting to Bluesky:"))).
Proof.
  intros Hex Hm.
  assert (H : getPostText w st = (Throw err, st)).
  { unfold getPostText, ensureTodayFolder, mbind, M_bind, ask, get_state.
    rewrite Hex, Hm. reflexivity. }
  split; [exact H|].
  unfold main, try_catch. unfold mbind at 1, M_bind at 1. rewrite H. reflexivity.
Qed.

Lemma getPostText_mkdir_error_witness :
  main w_mkdir_denied Samples.st0 =
    (Ret tt, log_event Samples.st0 (EvError (lit "Error posting to Bluesky:"))).
Proof.
  apply (proj2 (getPostText_mkdir_error w_mkdir_denied Samples.st0
                  (mkJsError (lit "Error") (lit "EACCES: permission denied, mkdir 'today'"))
                  eq_refl eq_refl)).
Defined.

(** When the login is rejected, [publishStep] throws that error before it
    reads the image, uploads or posts. *)
Theorem publishStep_login_rejected (w : world) (st : state) (handle password D : jsstr)
    (err : js_error) :
  w_login w handle password = Some err ->
  publishStep handle password D w st = (Throw err, log_event st (EvLogin handle password)).
Proof.
  intros Hl. unfold publishStep, mbind, M_bind, ask, emit. rewrite Hl. reflexivity.
Qed.

Lemma publishStep_login_rejected_witness :
  publishStep (lit "h") (lit "bad") (lit "d") w_login_fails Samples.st_img =
  (Throw (Error (lit "Invalid identifier or password")),
   log_event Samples.st_img (EvLogin (lit "h") (lit "bad"))).
Proof. apply publishStep_login_rejected. reflexivity. Defined.

(** When the upload is rejected, [publishStep] throws that error without
    creating a post; the bytes it tried to upload are those of the stored
    image file. *)
Theorem publishStep_upload_rejected (w : world) (st : state) (handle password D : jsstr)
    (bs : list byte) (err : js_error) :
  w_login w handle password = None -> w_read_fails w imageDest = false ->
  st_fs st !! imageDest = Some bs -> w_upload w bs = inl err ->
  publishStep handle password D w st =
    (Throw err, log_event (log_event st (EvLogin handle password))
                  (EvUpload bs (lit "image/jpeg"))).
Proof.
  intros Hl Hr Hfs Hu. unfold publishStep.
  unfold mbind at 1, M_bind at 1, ask at 1.
  unfold mbind at 1, M_bind at 1, emit at 1. rewrite Hl.
  unfold mbind at 1, M_bind at 1.
  rewrite (DescriptionFacts.getImageDataUrl_read w _ (lit "jpg") bs Hr) by exact Hfs.
  rewrite DataUrlFacts.convert_data_url.
  unfold mbind at 1, M_bind at 1, emit at 1. rewrite Hu. reflexivity.
Qed.

Lemma publishStep_upload_rejected_witness :
  publishStep (lit "h") (lit "pw") (lit "d") w_upload_fails Samples.st_img =
    (Throw (Error (lit "Request entity too large")),
     log_event (log_event Samples.st_img (EvLogin (lit "h") (lit "pw")))
       (EvUpload [x58] (lit "image/jpeg"))).
Proof. apply publishStep_upload_rejected; reflexivity. Defined.

End Extras.
